(** * kronosnet: the compression switch and the functional-test helpers

    A shallow embedding of

    - [libknet/compress.c]: the table of compression modules and the
      functions that dispatch through it;
    - [libknet/tests/test-common.c]: [knet_handle_stop];
    - [libknet/tests/fun_dynamic_check.c]: [dyn_knet_link_set_config],
      [FAIL_ON_ERR], [recv_messages] and the final check of [test].

    C [int]s, [uint32_t]s and [size_t]s are integers of [Z].  Most of the
    functions below do no arithmetic on them beyond stepping a table index,
    a loop counter or a port number within its bounds.  Where the source
    narrows a value (the [uint8_t] loop counters of the test helpers, a port
    stored to an [in_port_t], the [size_t] stored to the [int] target of
    [wait_for_nodes_state]) the conversion is written out, and the [int]
    product of [wait_for_packet] has no result where it overflows.
    C strings are [string]s and [strcmp(a, b) == 0] is [String.eqb].
    A [NULL] pointer is [None]. *)

From Stdlib Require Import ZArith List Ascii String Bool Lia.
Import ListNotations.
Open Scope string_scope.
Open Scope Z_scope.

(** ** Values of <errno.h> (Linux) *)

Definition EAGAIN : Z := 11.
Definition ENOMEM : Z := 12.
Definition EINVAL : Z := 22.
Definition EPROTONOSUPPORT : Z := 93.
Definition EADDRINUSE : Z := 98.

(** ** The handle, as far as compress.c reads and writes it *)

Definition buffer := list Byte.byte.

(** Modelled from the spec: [struct knet_handle] is declared in
    internals.h, which is not part of the sources at hand.  compress.c uses
    the four [compress_*] fields below; [compress_int_data] stands for the
    "per-algorithm scratch state keyed by handle" that the modules own. *)
Record knet_handle := mk_handle {
  compress_model : Z;
  compress_level : Z;
  compress_threshold : Z;
  compress_max_model : Z;
  compress_int_data : list (option buffer)
}.

(** [struct knet_handle_compress_cfg] (libknet.h). *)
Module Cfg.
Record t := mk {
  compress_model : string;
  compress_level : Z;
  compress_threshold : Z
}.
End Cfg.

(** What a callee that is handed [knet_h] can reach: the handle and the
    calling thread's [errno]. *)
Record state := mk_state {
  knet_h : knet_handle;
  errno : Z
}.

Definition set_errno (s : state) (e : Z) : state :=
  {| knet_h := knet_h s; errno := e |}.

Definition set_compress_max_model (s : state) (v : Z) : state :=
  {| knet_h := {| compress_model := compress_model (knet_h s);
                  compress_level := compress_level (knet_h s);
                  compress_threshold := compress_threshold (knet_h s);
                  compress_max_model := v;
                  compress_int_data := compress_int_data (knet_h s) |};
     errno := errno s |}.

Definition set_compress_threshold (s : state) (v : Z) : state :=
  {| knet_h := {| compress_model := compress_model (knet_h s);
                  compress_level := compress_level (knet_h s);
                  compress_threshold := v;
                  compress_max_model := compress_max_model (knet_h s);
                  compress_int_data := compress_int_data (knet_h s) |};
     errno := errno s |}.

Definition set_compress_model (s : state) (v : Z) : state :=
  {| knet_h := {| compress_model := v;
                  compress_level := compress_level (knet_h s);
                  compress_threshold := compress_threshold (knet_h s);
                  compress_max_model := compress_max_model (knet_h s);
                  compress_int_data := compress_int_data (knet_h s) |};
     errno := errno s |}.

Definition set_compress_level (s : state) (v : Z) : state :=
  {| knet_h := {| compress_model := compress_model (knet_h s);
                  compress_level := v;
                  compress_threshold := compress_threshold (knet_h s);
                  compress_max_model := compress_max_model (knet_h s);
                  compress_int_data := compress_int_data (knet_h s) |};
     errno := errno s |}.

(** ** The module interface ([compress_model_t], compress.h)

    The five operations of a table row, with the C signatures
    [int init(knet_h, method_idx)], [void fini(knet_h, method_idx)],
    [int val_level(knet_h, compress_level)] and
    [int (de)compress(knet_h, buf_in, buf_in_len, buf_out, buf_out_len)].
    Every one of them receives the handle by pointer and may write to it. *)

Record xfer := mk_xfer {
  rc : Z;                (* the int returned *)
  buf_out : buffer;      (* what was written to buf_out *)
  buf_out_len : Z        (* *buf_out_len on return *)
}.

Definition init_fn := state -> Z -> Z * state.
Definition fini_fn := state -> Z -> state.
Definition val_level_fn := state -> Z -> Z * state.
(* knet_h, buf_in, buf_in_len, *buf_out_len on entry *)
Definition codec_fn := state -> buffer -> Z -> Z -> xfer * state.

Module Cmd.
Record t := mk {
  model_name : option string;
  init : option init_fn;
  fini : option fini_fn;
  val_level : option val_level_fn;
  compress : option codec_fn;
  decompress : option codec_fn
}.
End Cmd.

(** The functions of compress_zlib.c, compress_lz4.c, compress_lzo2.c,
    compress_lzma.c and compress_bzip2.c that the table names.  Those files
    are not part of the sources at hand, so the functions are parameters. *)
Class compress_modules := {
  zlib_val_level : val_level_fn;
  zlib_compress : codec_fn;
  zlib_decompress : codec_fn;
  lz4_val_level : val_level_fn;
  lz4_compress : codec_fn;
  lz4_decompress : codec_fn;
  lz4hc_val_level : val_level_fn;
  lz4hc_compress : codec_fn;
  lzo2_init : init_fn;
  lzo2_fini : fini_fn;
  lzo2_val_level : val_level_fn;
  lzo2_compress : codec_fn;
  lzo2_decompress : codec_fn;
  lzma_val_level : val_level_fn;
  lzma_compress : codec_fn;
  lzma_decompress : codec_fn;
  bzip2_val_level : val_level_fn;
  bzip2_compress : codec_fn;
  bzip2_decompress : codec_fn
}.

(** The compile-time constants of internals.h and libknet.h that compress.c
    uses; the headers are not part of the sources at hand. *)
Class knet_limits := {
  KNET_MAX_COMPRESS_METHODS : Z;
  KNET_MAX_PACKET_SIZE : Z;
  KNET_COMPRESS_THRESHOLD : Z
}.

(** What compress.c does that an observer can see besides its results:
    calls through the table and log lines. *)
Inductive event :=
| Call_init (idx : Z)
| Call_fini (idx : Z)
| Call_val_level (idx level : Z)
| Log_err (msg : string)
| Log_debug (msg : string).

Record result := mk_result {
  ret : Z;
  st : state;
  calls : list event
}.

Definition emit (e : event) (r : result) : result :=
  {| ret := ret r; st := st r; calls := e :: calls r |}.

Notation "e ';;' r" := (emit e r) (at level 61, right associativity).

(** A [return v;] *)
Definition done (v : Z) (s : state) : result :=
  {| ret := v; st := s; calls := [] |}.

(** [errno = e; return -1;] *)
Definition fail (e : Z) (s : state) : result := done (-1) (set_errno s e).

Section Compress.

Context {M : compress_modules} {L : knet_limits}.

Definition compress_modules_cmds : list Cmd.t := [
  Cmd.mk (Some "none") None None None None None;
  Cmd.mk (Some "zlib") None None
         (Some zlib_val_level) (Some zlib_compress) (Some zlib_decompress);
  Cmd.mk (Some "lz4") None None
         (Some lz4_val_level) (Some lz4_compress) (Some lz4_decompress);
  Cmd.mk (Some "lz4hc") None None
         (Some lz4hc_val_level) (Some lz4hc_compress) (Some lz4_decompress);
  Cmd.mk (Some "lzo2") (Some lzo2_init) (Some lzo2_fini)
         (Some lzo2_val_level) (Some lzo2_compress) (Some lzo2_decompress);
  Cmd.mk (Some "lzma") None None
         (Some lzma_val_level) (Some lzma_compress) (Some lzma_decompress);
  Cmd.mk (Some "bzip2") None None
         (Some bzip2_val_level) (Some bzip2_compress) (Some bzip2_decompress);
  Cmd.mk None None None None None None
].

(** [compress_modules_cmds[idx]].  Reading outside the array is undefined in
    C; it is [None] here. *)
Definition cmds_at (idx : Z) : option Cmd.t :=
  if idx <? 0 then None else nth_error compress_modules_cmds (Z.to_nat idx).

(** [get_model_by_idx]: the name pointer of row [idx], [NULL] for the last
    row.  (An [idx] outside the array, undefined in C, also gives [None].) *)
Definition get_model_by_idx (idx : Z) : option string :=
  match cmds_at idx with
  | Some r => Cmd.model_name r
  | None => None
  end.

(** The [while] loop of [get_model], entered with [rows] the part of the
    array from [idx] on.  The loop stops at the row whose name is [NULL];
    the case of an exhausted array is not reached from [get_model]. *)
Fixpoint get_model_from (rows : list Cmd.t) (model : string) (idx : Z) : Z :=
  match rows with
  | [] => -1
  | r :: rest =>
      match Cmd.model_name r with
      | None => -1
      | Some name =>
          if String.eqb name model then idx
          else get_model_from rest model (idx + 1)
      end
  end.

Definition get_model (model : string) : Z :=
  get_model_from compress_modules_cmds model 0.

Fixpoint get_max_model_from (rows : list Cmd.t) (idx : Z) : Z :=
  match rows with
  | [] => idx - 1
  | r :: rest =>
      match Cmd.model_name r with
      | None => idx - 1
      | Some _ => get_max_model_from rest (idx + 1)
      end
  end.

Definition get_max_model : Z := get_max_model_from compress_modules_cmds 0.

(** [val_level]: a call through the [val_level] pointer of row
    [compress_model]; [None] where C is undefined (no such row, or a [NULL]
    pointer). *)
Definition val_level (s : state) (compress_model compress_level : Z)
  : option (Z * state) :=
  match cmds_at compress_model with
  | Some r =>
      match Cmd.val_level r with
      | Some f => Some (f s compress_level)
      | None => None
      end
  | None => None
  end.

(** The loop of [compress_init] for an absent cfg. *)
Fixpoint init_from (rows : list Cmd.t) (idx : Z) (s : state) : result :=
  match rows with
  | [] => done 0 s
  | r :: rest =>
      match Cmd.model_name r with
      | None => done 0 s
      | Some _ =>
          match Cmd.init r with
          | Some f =>
              let (v, s1) := f s idx in
              Call_init idx ;;
              if v <? 0 then
                Log_err "Failed to initialize %s library" ;;
                fail EINVAL s1
              else init_from rest (idx + 1) s1
          | None => init_from rest (idx + 1) s
          end
      end
  end.

(** The tail of [compress_init] that both a module of index 0 and a
    validated module of index above 0 reach. *)
Definition store_selection (s : state) (cmp_model : Z) (cfg : Cfg.t) : result :=
  done 0 (set_compress_level (set_compress_model s cmp_model)
                             (Cfg.compress_level cfg)).

Definition compress_init (s : state) (knet_handle_compress_cfg : option Cfg.t)
  : option result :=
  let s := set_compress_max_model s get_max_model in
  if compress_max_model (knet_h s) >? KNET_MAX_COMPRESS_METHODS then
    Some (Log_err "Too many compress methods supported by compress.c. Please complain to knet developers to fix internals.h KNET_MAX_COMPRESS_METHODS define!" ;;
          fail EINVAL s)
  else
    match knet_handle_compress_cfg with
    | None => Some (init_from compress_modules_cmds 0 s)
    | Some cfg =>
        let cmp_model := get_model (Cfg.compress_model cfg) in
        if cmp_model <? 0 then
          Some (Log_debug "Initizializing compress module [%s/%d/%u]" ;;
                Log_err "compress model %s not supported" ;;
                fail EINVAL s)
        else if cmp_model >? 0 then
          match val_level s cmp_model (Cfg.compress_level cfg) with
          | None => None
          | Some (v, s1) =>
              Some (Log_debug "Initizializing compress module [%s/%d/%u]" ;;
                    Call_val_level cmp_model (Cfg.compress_level cfg) ;;
                    if v <? 0 then
                      Log_err "compress level %d not supported for model %s" ;;
                      fail EINVAL s1
                    else if Cfg.compress_threshold cfg >? KNET_MAX_PACKET_SIZE then
                      Log_err "compress threshold cannot be higher than KNET_MAX_PACKET_SIZE (%d)." ;;
                      fail EINVAL s1
                    else if Cfg.compress_threshold cfg =? 0 then
                      Log_debug "resetting compression threshold to default (%d)" ;;
                      store_selection
                        (set_compress_threshold s1 KNET_COMPRESS_THRESHOLD)
                        cmp_model cfg
                    else
                      store_selection
                        (set_compress_threshold s1 (Cfg.compress_threshold cfg))
                        cmp_model cfg)
          end
        else
          Some (Log_debug "Initizializing compress module [%s/%d/%u]" ;;
                store_selection s cmp_model cfg)
    end.

(** The loop of [compress_fini]. *)
Fixpoint fini_from (rows : list Cmd.t) (idx : Z) (s : state)
  : state * list event :=
  match rows with
  | [] => (s, [])
  | r :: rest =>
      match Cmd.model_name r with
      | None => (s, [])
      | Some _ =>
          if idx <? KNET_MAX_COMPRESS_METHODS then
            match Cmd.fini r with
            | Some f =>
                let (s', tr) := fini_from rest (idx + 1) (f s idx) in
                (s', Call_fini idx :: tr)
            | None => fini_from rest (idx + 1) s
            end
          else (s, [])
      end
  end.


(** [compress] and [decompress]: one call through the table each; [None]
    where C is undefined (no such row, or a [NULL] pointer such as those of
    row 0). *)
Definition compress (s : state) (buf_in : buffer) (buf_in_len : Z)
  (buf_out_len : Z) : option (xfer * state) :=
  match cmds_at (compress_model (knet_h s)) with
  | Some r =>
      match Cmd.compress r with
      | Some f => Some (f s buf_in buf_in_len buf_out_len)
      | None => None
      end
  | None => None
  end.

Definition decompress (s : state) (compress_model : Z) (buf_in : buffer)
  (buf_in_len : Z) (buf_out_len : Z) : option (xfer * state) :=
  match cmds_at compress_model with
  | Some r =>
      match Cmd.decompress r with
      | Some f => Some (f s buf_in buf_in_len buf_out_len)
      | None => None
      end
  | None => None
  end.

End Compress.

(** ** Modules to run the switch on

    [store_modules] is a set of modules small enough to evaluate: each codec
    copies its input behind a one-byte tag of its own, each level check
    accepts a range, and lzo2 keeps its work memory in slot [method_idx] of
    [compress_int_data].  [oom_modules] differs in [lzo2_init], which finds
    no memory. *)

Fixpoint set_slot (l : list (option buffer)) (n : nat) (v : option buffer)
  : list (option buffer) :=
  match l, n with
  | [], _ => []
  | _ :: l', O => v :: l'
  | x :: l', S n' => x :: set_slot l' n' v
  end.

Definition set_compress_int_data (s : state) (idx : Z) (v : option buffer)
  : state :=
  {| knet_h := {| compress_model := compress_model (knet_h s);
                  compress_level := compress_level (knet_h s);
                  compress_threshold := compress_threshold (knet_h s);
                  compress_max_model := compress_max_model (knet_h s);
                  compress_int_data :=
                    set_slot (compress_int_data (knet_h s)) (Z.to_nat idx) v |};
     errno := errno s |}.

Definition level_between (lo hi : Z) : val_level_fn :=
  fun s level =>
    if (lo <=? level) && (level <=? hi) then (0, s)
    else (-1, set_errno s EINVAL).

Definition tag_compress (tag : Byte.byte) : codec_fn :=
  fun s buf_in buf_in_len cap =>
    if buf_in_len + 1 <=? cap then
      (mk_xfer 0 (tag :: buf_in) (buf_in_len + 1), s)
    else (mk_xfer (-1) [] cap, set_errno s EINVAL).

Definition tag_decompress (tag : Byte.byte) : codec_fn :=
  fun s buf_in buf_in_len cap =>
    match buf_in with
    | b :: rest =>
        if Byte.eqb b tag && (buf_in_len - 1 <=? cap) then
          (mk_xfer 0 rest (buf_in_len - 1), s)
        else (mk_xfer (-1) [] cap, set_errno s EINVAL)
    | [] => (mk_xfer (-1) [] cap, set_errno s EINVAL)
    end.

Definition store_modules : compress_modules := {|
  zlib_val_level := level_between 0 9;
  zlib_compress := tag_compress Byte.x01;
  zlib_decompress := tag_decompress Byte.x01;
  lz4_val_level := level_between 1 65537;
  lz4_compress := tag_compress Byte.x02;
  lz4_decompress := tag_decompress Byte.x02;
  lz4hc_val_level := level_between 1 12;
  lz4hc_compress := tag_compress Byte.x02;
  lzo2_init := fun s idx => (0, set_compress_int_data s idx (Some []));
  lzo2_fini := fun s idx => set_compress_int_data s idx None;
  lzo2_val_level := fun s _ => (0, s);
  lzo2_compress := tag_compress Byte.x04;
  lzo2_decompress := tag_decompress Byte.x04;
  lzma_val_level := level_between 0 9;
  lzma_compress := tag_compress Byte.x05;
  lzma_decompress := tag_decompress Byte.x05;
  bzip2_val_level := level_between 1 9;
  bzip2_compress := tag_compress Byte.x06;
  bzip2_decompress := tag_decompress Byte.x06
|}.

Definition oom_modules : compress_modules := {|
  zlib_val_level := level_between 0 9;
  zlib_compress := tag_compress Byte.x01;
  zlib_decompress := tag_decompress Byte.x01;
  lz4_val_level := level_between 1 65537;
  lz4_compress := tag_compress Byte.x02;
  lz4_decompress := tag_decompress Byte.x02;
  lz4hc_val_level := level_between 1 12;
  lz4hc_compress := tag_compress Byte.x02;
  lzo2_init := fun s _ => (-1, set_errno s ENOMEM);
  lzo2_fini := fun s idx => set_compress_int_data s idx None;
  lzo2_val_level := fun s _ => (0, s);
  lzo2_compress := tag_compress Byte.x04;
  lzo2_decompress := tag_decompress Byte.x04;
  lzma_val_level := level_between 0 9;
  lzma_compress := tag_compress Byte.x05;
  lzma_decompress := tag_decompress Byte.x05;
  bzip2_val_level := level_between 1 9;
  bzip2_compress := tag_compress Byte.x06;
  bzip2_decompress := tag_decompress Byte.x06
|}.

Definition store_limits : knet_limits := {|
  KNET_MAX_COMPRESS_METHODS := 255;
  KNET_MAX_PACKET_SIZE := 65536;
  KNET_COMPRESS_THRESHOLD := 100
|}.

(** A handle on which nothing of the compression layer has run yet. *)
Definition fresh_state : state := {|
  knet_h := {| compress_model := 0;
               compress_level := 0;
               compress_threshold := 0;
               compress_max_model := 0;
               compress_int_data := repeat None 8 |};
  errno := 0
|}.





(** ** tests/test-common.c: [knet_handle_stop]

    The library functions that [knet_handle_stop] calls live in the core,
    which is not part of the sources at hand; they are the operations of a
    class over the type of library states.  A getter answers with its return
    value and what it stored through its out-pointers. *)

Class knet_api (core : Type) := {
  knet_handle_setfwd : core -> Z -> Z * core;
  knet_host_get_host_list : core -> Z * list Z;
  knet_link_get_link_list : core -> Z -> Z * list Z;
  knet_link_get_enable : core -> Z -> Z -> Z * Z;
  knet_link_set_enable : core -> Z -> Z -> Z -> Z * core;
  knet_link_clear_config : core -> Z -> Z -> Z * core;
  knet_host_remove : core -> Z -> Z * core;
  knet_handle_free : core -> Z * core
}.

(** The calls into the library, with their arguments, in the order made. *)
Inductive api_call :=
| Setfwd (enabled : Z)
| Get_host_list
| Get_link_list (host_id : Z)
| Get_enable (host_id link_id : Z)
| Set_enable (host_id link_id enabled : Z)
| Clear_config (host_id link_id : Z)
| Host_remove (host_id : Z)
| Handle_free.

Definition api_call_eqb (a b : api_call) : bool :=
  match a, b with
  | Setfwd x, Setfwd y => x =? y
  | Get_host_list, Get_host_list => true
  | Get_link_list x, Get_link_list y => x =? y
  | Get_enable h l, Get_enable h' l' => (h =? h') && (l =? l')
  | Set_enable h l e, Set_enable h' l' e' => (h =? h') && (l =? l') && (e =? e')
  | Clear_config h l, Clear_config h' l' => (h =? h') && (l =? l')
  | Host_remove x, Host_remove y => x =? y
  | Handle_free, Handle_free => true
  | _, _ => false
  end.

Record stopped (core : Type) := mk_stopped {
  stop_ret : Z;
  stop_errno : option Z;     (* what knet_handle_stop itself stored to errno *)
  stop_core : option core;
  stop_calls : list api_call
}.
Arguments mk_stopped {core}.
Arguments stop_ret {core}.
Arguments stop_errno {core}.
Arguments stop_core {core}.
Arguments stop_calls {core}.

Definition called {core : Type} (c : api_call) (r : stopped core) : stopped core :=
  {| stop_ret := stop_ret r; stop_errno := stop_errno r;
     stop_core := stop_core r; stop_calls := c :: stop_calls r |}.

Definition stop_return {core : Type} (v : Z) (h : core) : stopped core :=
  {| stop_ret := v; stop_errno := None; stop_core := Some h; stop_calls := [] |}.

(** A [size_t] passed where the prototype has [uint8_t link_id]. *)
Definition to_uint8 (j : Z) : Z := j mod 256.

Section Handle_stop.

Context {core : Type} {A : knet_api core}.

(** The [for (j = 0; j < link_ids_entries; j++)] loop, entered at [j] with
    [link_ids] the entries from [link_ids[j]] on.  [k] is what follows the
    loop.  The enable state is asked of link [link_ids[j]]; the calls that
    disable and clear are made with [j]. *)
Fixpoint stop_links (h : core) (host_id : Z) (link_ids : list Z) (j : Z)
  (k : core -> stopped core) : stopped core :=
  match link_ids with
  | [] => k h
  | link_id :: rest =>
      let (r, enabled) := knet_link_get_enable h host_id link_id in
      called (Get_enable host_id link_id)
        (if negb (r =? 0) then stop_return (-1) h
         else if negb (enabled =? 0) then
           let (r1, h1) := knet_link_set_enable h host_id (to_uint8 j) 0 in
           called (Set_enable host_id (to_uint8 j) 0)
             (if negb (r1 =? 0) then stop_return (-1) h1
              else
                let (_, h2) := knet_link_clear_config h1 host_id (to_uint8 j) in
                called (Clear_config host_id (to_uint8 j))
                  (stop_links h2 host_id rest (j + 1) k))
         else
           let (_, h2) := knet_link_clear_config h host_id (to_uint8 j) in
           called (Clear_config host_id (to_uint8 j))
             (stop_links h2 host_id rest (j + 1) k))
  end.

(** The [for (i = 0; i < host_ids_entries; i++)] loop over the entries of
    [host_ids] that are left, and the call of [knet_handle_free] behind it. *)
Fixpoint stop_hosts (h : core) (host_ids : list Z) : stopped core :=
  match host_ids with
  | [] =>
      let (r, h1) := knet_handle_free h in
      called Handle_free
        (if negb (r =? 0) then stop_return (-1) h1 else stop_return 0 h1)
  | host_id :: rest =>
      let (r, link_ids) := knet_link_get_link_list h host_id in
      called (Get_link_list host_id)
        (if negb (r =? 0) then stop_return (-1) h
         else
           stop_links h host_id link_ids 0
             (fun h1 =>
                let (r1, h2) := knet_host_remove h1 host_id in
                called (Host_remove host_id)
                  (if r1 <? 0 then stop_return (-1) h2
                   else stop_hosts h2 rest)))
  end.

Definition knet_handle_stop (knet_h : option core) : stopped core :=
  match knet_h with
  | None =>
      {| stop_ret := -1; stop_errno := Some EINVAL; stop_core := None;
         stop_calls := [] |}
  | Some h =>
      let (r, h1) := knet_handle_setfwd h 0 in
      called (Setfwd 0)
        (if r <? 0 then stop_return (-1) h1
         else
           let (r1, host_ids) := knet_host_get_host_list h1 in
           called Get_host_list
             (if r1 <? 0 then stop_return (-1) h1
              else stop_hosts h1 host_ids))
  end.

End Handle_stop.

(** *** A library state to stop

    The handle of the data model: a forwarding flag and hosts that own the
    links configured on them. *)

Record link := mk_link {
  link_id : Z;
  enabled : bool
}.

Record host := mk_host {
  host_id : Z;
  links : list link
}.

Record handle := mk_core {
  fwd : bool;
  hosts : list host;
  freed : bool
}.

Definition find_host (h : handle) (id : Z) : option host :=
  find (fun x => host_id x =? id) (hosts h).

Definition find_link (x : host) (id : Z) : option link :=
  find (fun l => link_id l =? id) (links x).

Definition update_host (h : handle) (x : host) : handle :=
  {| fwd := fwd h;
     hosts := map (fun y => if host_id y =? host_id x then x else y) (hosts h);
     freed := freed h |}.

(** Modelled from the spec: the core functions behind [knet_api] are not in
    the sources at hand.  From the data model and the link state machine:
    [setfwd] sets the forwarding flag; the getters enumerate hosts and
    configured links; "a link may be enabled only while its host exists and
    its config is set", so [set_enable] fails on anything else; a link "must
    be disabled before clear", and clearing what is not configured changes
    nothing; only [clear_config] destroys a link and a host exclusively owns
    its links, so [remove_host] fails while links are left; [close] "requires
    that no link is still enabled", hence that no host is left. *)
Definition spec_setfwd (h : handle) (on : Z) : Z * handle :=
  (0, {| fwd := negb (on =? 0); hosts := hosts h; freed := freed h |}).

(** Modelled from the spec: the ids of the hosts of the handle. *)
Definition spec_get_host_list (h : handle) : Z * list Z :=
  (0, map host_id (hosts h)).

(** Modelled from the spec: the ids of the links configured on a host; an
    error for a host that is not there. *)
Definition spec_get_link_list (h : handle) (id : Z) : Z * list Z :=
  match find_host h id with
  | Some x => (0, map link_id (links x))
  | None => (-1, [])
  end.

(** Modelled from the spec: the enabled flag of a configured link; an error
    for a link that is not configured. *)
Definition spec_get_enable (h : handle) (id lid : Z) : Z * Z :=
  match find_host h id with
  | Some x =>
      match find_link x lid with
      | Some l => (0, if enabled l then 1 else 0)
      | None => (-1, 0)
      end
  | None => (-1, 0)
  end.

(** Modelled from the spec: a link may be enabled only while its host exists
    and its config is set; the call fails on any other link. *)
Definition spec_set_enable (h : handle) (id lid on : Z) : Z * handle :=
  match find_host h id with
  | Some x =>
      match find_link x lid with
      | Some _ =>
          (0, update_host h
                {| host_id := host_id x;
                   links := map (fun l => if link_id l =? lid
                                          then mk_link lid (negb (on =? 0))
                                          else l) (links x) |})
      | None => (-1, h)
      end
  | None => (-1, h)
  end.

(** Modelled from the spec: a link must be disabled before clear; clearing a
    link that is not configured changes nothing. *)
Definition spec_clear_config (h : handle) (id lid : Z) : Z * handle :=
  match find_host h id with
  | Some x =>
      match find_link x lid with
      | Some l =>
          if enabled l then (-1, h)
          else (0, update_host h
                     {| host_id := host_id x;
                        links := filter (fun l => negb (link_id l =? lid))
                                        (links x) |})
      | None => (0, h)
      end
  | None => (-1, h)
  end.

(** Modelled from the spec: a host exclusively owns its links and only
    clear_config destroys a link, so a host with links left is not removed. *)
Definition spec_host_remove (h : handle) (id : Z) : Z * handle :=
  match find_host h id with
  | Some x =>
      match links x with
      | [] => (0, {| fwd := fwd h;
                     hosts := filter (fun y => negb (host_id y =? id)) (hosts h);
                     freed := freed h |})
      | _ :: _ => (-1, h)
      end
  | None => (-1, h)
  end.

(** Modelled from the spec: close comes after all hosts are removed. *)
Definition spec_handle_free (h : handle) : Z * handle :=
  match hosts h with
  | [] => (0, {| fwd := fwd h; hosts := []; freed := true |})
  | _ :: _ => (-1, h)
  end.

Definition spec_api : knet_api handle := {|
  knet_handle_setfwd := spec_setfwd;
  knet_host_get_host_list := spec_get_host_list;
  knet_link_get_link_list := spec_get_link_list;
  knet_link_get_enable := spec_get_enable;
  knet_link_set_enable := spec_set_enable;
  knet_link_clear_config := spec_clear_config;
  knet_host_remove := spec_host_remove;
  knet_handle_free := spec_handle_free
|}.

(** *** The ordering contract, read off a sequence of calls

    [h0] is the library state when the teardown starts. *)

Definition is_link_call (c : api_call) : bool :=
  match c with
  | Get_link_list _ | Get_enable _ _ | Set_enable _ _ _ | Clear_config _ _ => true
  | _ => false
  end.

Definition occurs (c : api_call) (l : list api_call) : bool :=
  existsb (api_call_eqb c) l.

(** Forwarding is switched off before any link is touched. *)
Fixpoint fwd_off_first (calls : list api_call) : bool :=
  match calls with
  | [] => true
  | Setfwd 0 :: _ => true
  | c :: rest => negb (is_link_call c) && fwd_off_first rest
  end.

Definition was_enabled (h0 : handle) (id lid : Z) : bool :=
  match find_host h0 id with
  | Some x => match find_link x lid with
              | Some l => enabled l
              | None => false
              end
  | None => false
  end.

(** A condition on every call of a sequence, given the calls made before
    it ([before] holds them, the latest first). *)
Fixpoint ordered (ok : list api_call -> api_call -> bool)
  (before calls : list api_call) : bool :=
  match calls with
  | [] => true
  | c :: rest => ok before c && ordered ok (c :: before) rest
  end.

(** No config is cleared of a link that was enabled and has not been
    disabled by an earlier call. *)
Definition clear_ok (h0 : handle) (before : list api_call) (c : api_call)
  : bool :=
  match c with
  | Clear_config id lid =>
      implb (was_enabled h0 id lid) (occurs (Set_enable id lid 0) before)
  | _ => true
  end.

Definition disabled_before_clear (h0 : handle)
  : list api_call -> list api_call -> bool :=
  ordered (clear_ok h0).

Definition links_of (h0 : handle) (id : Z) : list Z :=
  match find_host h0 id with
  | Some x => map link_id (links x)
  | None => []
  end.

(** No host is removed before the config of each of its links has been
    cleared by an earlier call. *)
Definition remove_ok (h0 : handle) (before : list api_call) (c : api_call)
  : bool :=
  match c with
  | Host_remove id =>
      forallb (fun lid => occurs (Clear_config id lid) before) (links_of h0 id)
  | _ => true
  end.

Definition cleared_before_remove (h0 : handle)
  : list api_call -> list api_call -> bool :=
  ordered (remove_ok h0).

(** The handle is not freed before every host has been removed by an
    earlier call. *)
Definition free_after (ids : list Z) (before : list api_call) (c : api_call)
  : bool :=
  match c with
  | Handle_free => forallb (fun id => occurs (Host_remove id) before) ids
  | _ => true
  end.

Definition free_ok (h0 : handle) : list api_call -> api_call -> bool :=
  free_after (map host_id (hosts h0)).

Definition removed_before_free (h0 : handle)
  : list api_call -> list api_call -> bool :=
  ordered (free_ok h0).

Definition teardown_in_order (h0 : handle) (calls : list api_call) : bool :=
  fwd_off_first calls
  && disabled_before_clear h0 [] calls
  && cleared_before_remove h0 [] calls
  && removed_before_free h0 [] calls.

(** *** A teardown in order

    The calls that take one link, one host and a whole handle down. *)

Definition link_teardown (id : Z) (l : link) : list api_call :=
  (Get_enable id (link_id l)
     :: (if enabled l then [Set_enable id (link_id l) 0] else [])
     ++ [Clear_config id (link_id l)])%list.

Definition host_teardown (x : host) : list api_call :=
  (Get_link_list (host_id x)
     :: flat_map (link_teardown (host_id x)) (links x)
     ++ [Host_remove (host_id x)])%list.

Definition full_teardown (h : handle) : list api_call :=
  (Setfwd 0 :: Get_host_list
     :: flat_map host_teardown (hosts h) ++ [Handle_free])%list.

(** The ids of the links are their positions in the list, counted from
    [j]. *)
Fixpoint positional (ls : list link) (j : Z) : Prop :=
  match ls with
  | [] => True
  | l :: rest => link_id l = j /\ positional rest (j + 1)
  end.

(** Host ids are unique, and on every host the link ids are the positions
    0, 1, ... of the links, within what a [uint8_t] holds. *)
Definition positional_handle (h : handle) : Prop :=
  NoDup (map host_id (hosts h))
  /\ Forall (fun x => positional (links x) 0
                      /\ Z.of_nat (List.length (links x)) <= 256) (hosts h).

Definition calls_then {core : Type} (pre : list api_call) (r : stopped core)
  : stopped core :=
  {| stop_ret := stop_ret r; stop_errno := stop_errno r;
     stop_core := stop_core r; stop_calls := (pre ++ stop_calls r)%list |}.

(** A condition that looks only at which calls came before keeps holding
    when more calls came before. *)
Definition monotone (ok : list api_call -> api_call -> bool) : Prop :=
  forall b b' c,
    (forall x, occurs x b = true -> occurs x b' = true) ->
    ok b c = true -> ok b' c = true.

(** Host 1 with its links 0 and 1, both enabled: link ids equal to their
    positions in the link list. *)
Definition two_links_up : handle :=
  mk_core true [mk_host 1 [mk_link 0 true; mk_link 1 true]] false.

(** Host 1 with the single link 1, disabled. *)
Definition only_link_1 : handle :=
  mk_core true [mk_host 1 [mk_link 1 false]] false.

(** Host 1 with links 1, 2 and 3, of which link 2 is enabled. *)
Definition links_1_2_3 : handle :=
  mk_core true
    [mk_host 1 [mk_link 1 false; mk_link 2 true; mk_link 3 false]] false.

(** ** tests/fun_dynamic_check.c *)

(** The exit statuses of test-common.h. *)
Inductive exit_status := PASS | SKIP | FAIL.

(** *** [dyn_knet_link_set_config] *)

Record sockaddr := mk_sockaddr {
  sa_addr : string;
  sa_port : Z
}.

(** What the function sees of the library and of the build: the two
    constants it compares with, [knet_strtoaddr] (its return value and the
    address it stored) and [knet_link_set_config], which is entered with
    [errno] zero and answers with its return value and the [errno] it
    leaves.  Every attempt is made with a port of its own, so answers that
    depend on the arguments cover answers that depend on the attempt. *)
Class link_env := {
  AF_INET6 : Z;
  KNET_TRANSPORT_SCTP : Z;
  knet_strtoaddr : string -> Z -> Z * sockaddr;
  knet_link_set_config :
    Z -> Z -> Z -> sockaddr -> option sockaddr -> Z -> Z * Z
}.

Record configured := mk_configured {
  cfg_ret : Z;          (* the int returned *)
  cfg_errno : Z;        (* errno on return *)
  cfg_lo0 : option sockaddr   (* what was stored to lo0, if anything *)
}.

Section Dyn.

Context {E : link_env}.

Variables (host_id link_id transport flags family dynamic : Z).
Variable addr : string.
Variable lo1 : option sockaddr.

(** The [for (port = 1025; port < 65536; port++)] loop, entered at [port]
    with the current [err] and [savederrno].  On every way out [errno] has
    the value of [savederrno].  [fuel] bounds the number of rounds; [None]
    when it runs out. *)
Fixpoint dyn_loop (fuel : nat) (port err savederrno : Z)
  (lo0 : option sockaddr) : option configured :=
  if port <? 65536 then
    match fuel with
    | O => None
    | S fuel' =>
        let (err, sa) :=
          if family =? AF_INET6 then knet_strtoaddr "::1" port
          else knet_strtoaddr addr port in
        if err <? 0 then
          Some (mk_configured err savederrno (Some sa))
        else
          let (err, savederrno) :=
            if negb (dynamic =? 0) then
              knet_link_set_config host_id link_id transport sa None flags
            else
              knet_link_set_config host_id link_id transport sa lo1 flags in
          if (err <? 0) && negb (savederrno =? EADDRINUSE) then
            if (savederrno =? EPROTONOSUPPORT)
               && (transport =? KNET_TRANSPORT_SCTP) then
              Some (mk_configured (-2) savederrno (Some sa))
            else
              Some (mk_configured err savederrno (Some sa))
          else if err =? 0 then
            Some (mk_configured err savederrno (Some sa))
          else
            dyn_loop fuel' (port + 1) err savederrno (Some sa)
    end
  else
    Some (mk_configured err savederrno lo0).

Definition dyn_knet_link_set_config : option configured :=
  dyn_loop (Z.to_nat 65536) 1025 0 0 None.

End Dyn.

(** *** [FAIL_ON_ERR]

    What the macro does with the value [res] of its argument: nothing when
    it is zero; otherwise the clean-up and the exit. *)

Inductive cleanup :=
| Set_quit_recv_thread
| Join_recv_threads
| Stop_nodes
| Stop_logthread
| Flush_logs
| Close_logpipes
| Close_reply_pipe.

Definition FAIL_ON_ERR (recv_thread_1 : Z) (res : Z)
  : option (list cleanup * exit_status) :=
  if negb (res =? 0) then
    Some (([Set_quit_recv_thread]
             ++ (if negb (recv_thread_1 =? 0) then [Join_recv_threads] else [])
             ++ [Stop_nodes; Stop_logthread; Flush_logs; Close_logpipes;
                 Close_reply_pipe])%list,
          if res =? -2 then SKIP else FAIL)
  else None.

(** How a run of [test] ends at a [FAIL_ON_ERR(dyn_knet_link_set_config(...))]:
    [None] when the test goes on. *)
Definition dyn_exit (recv_thread_1 : Z) (c : configured) : option exit_status :=
  option_map snd (FAIL_ON_ERR recv_thread_1 (cfg_ret c)).

(** *** [recv_messages] *)

Definition CORRECT_NUM_MSGS : Z := 10.

(** One round of the receive loop as the thread meets it: what [knet_recv]
    returned and left in [buf] and [errno], the value of [quit_recv_thread]
    read under the mutex, and what a [write] to the reply pipe returns. *)
Record recv_round := mk_round {
  len : Z;
  buf : string;
  recv_errno : Z;
  quit_recv_thread : bool;
  write_res : Z
}.

(** The variables that outlive a call: the global [msgs_recvd], the
    [static int err] whose address the thread returns, and the number of
    bytes written to the reply pipe. *)
Record recv_vars := mk_vars {
  msgs_recvd : Z;
  err : Z;
  replies : Z
}.

Inductive flow := Next | Break | Return.

Definition starts_with_0 (b : string) : bool :=
  match b with
  | String c _ => Ascii.eqb c "0"%char
  | EmptyString => false
  end.

(** The body of the [while] loop. *)
Definition recv_body (r : recv_round) (v : recv_vars) : recv_vars * flow :=
  if quit_recv_thread r then
    (mk_vars (msgs_recvd v) 1 (replies v), Return)
  else
    let after :=
      if len r >? 0 then
        let v1 := mk_vars (msgs_recvd v + 1) (err v) (replies v) in
        if String.eqb "QUIT" (buf r) then (v1, Break)
        else if starts_with_0 (buf r) then
          (mk_vars (msgs_recvd v1) 1 (replies v1), Return)
        else if negb (write_res r =? 1) then
          (mk_vars (msgs_recvd v1) 1 (replies v1), Return)
        else (mk_vars (msgs_recvd v1) (err v1) (replies v1 + 1), Next)
      else (v, Next) in
    match after with
    | (v2, Next) =>
        if (len r <? 0) && negb (recv_errno r =? EAGAIN) then (v2, Break)
        else (v2, Next)
    | other => other
    end.

(** [recv_messages] on the rounds the thread gets to run.  The local [quit]
    is zero whenever the loop condition is evaluated, so the condition is
    [len != 0].  [None]: the rounds are used up and the thread is still in
    the loop. *)
Fixpoint recv_messages (rounds : list recv_round) (v : recv_vars)
  : option recv_vars :=
  match rounds with
  | [] => None
  | r :: rest =>
      if len r =? 0 then Some v
      else
        match recv_body r v with
        | (v1, Next) => recv_messages rest v1
        | (v1, _) => Some v1
        end
  end.

(** *** The end of [test]: the joins and the count of messages

    [None] when [test] returns to [main]. *)

Definition check_msgs_recvd (msgs_recvd : Z) : option exit_status :=
  if negb (msgs_recvd =? CORRECT_NUM_MSGS)
     && negb (msgs_recvd =? CORRECT_NUM_MSGS - 1)
  then Some FAIL else None.

Definition test_end (thread_err_1 thread_err_2 msgs_recvd : Z)
  : option exit_status :=
  if negb (thread_err_1 =? 0) then Some FAIL
  else if negb (thread_err_2 =? 0) then Some FAIL
  else check_msgs_recvd msgs_recvd.

(** A payload received, with the main thread not asking to quit and the
    reply pipe taking the byte. *)
Definition got (payload : string) : recv_round :=
  mk_round (Z.of_nat (String.length payload) + 1) payload 0 false 1.

(** ** Definitions used to state the properties of the switch *)

(** The names at positions 0 to 6 of the table, as the wire protocol has
    them. *)
Definition registered_names : list string :=
  ["none"; "zlib"; "lz4"; "lz4hc"; "lzo2"; "lzma"; "bzip2"].

(** The calls through the table among the events, log lines left out. *)
Definition hook_calls (tr : list event) : list event :=
  filter (fun e => match e with
                   | Log_err _ | Log_debug _ => false
                   | _ => true
                   end) tr.

(** The indices, counted from [idx], of the rows before the first nameless
    row that declare an [init] hook; likewise for [fini]. *)
Fixpoint declares_init (rows : list Cmd.t) (idx : Z) : list Z :=
  match rows with
  | [] => []
  | r :: rest =>
      match Cmd.model_name r with
      | None => []
      | Some _ =>
          match Cmd.init r with
          | Some _ => idx :: declares_init rest (idx + 1)
          | None => declares_init rest (idx + 1)
          end
      end
  end.

Fixpoint declares_fini (rows : list Cmd.t) (idx : Z) : list Z :=
  match rows with
  | [] => []
  | r :: rest =>
      match Cmd.model_name r with
      | None => []
      | Some _ =>
          match Cmd.fini r with
          | Some _ => idx :: declares_fini rest (idx + 1)
          | None => declares_fini rest (idx + 1)
          end
      end
  end.

(** The names of the rows before the first nameless row: the part of a
    table that the loops over it see. *)
Fixpoint names_before_null (rows : list Cmd.t) : list string :=
  match rows with
  | [] => []
  | r :: rest =>
      match Cmd.model_name r with
      | None => []
      | Some name => name :: names_before_null rest
      end
  end.

(** Every [init] hook that a table declares, run in the order of the table
    on the handle as the hook before it left it, whatever the hooks answer:
    the index of each with its answer and the handle after it. *)
Fixpoint init_answers (rows : list Cmd.t) (idx : Z) (s : state)
  : list (Z * Z * state) :=
  match rows with
  | [] => []
  | r :: rest =>
      match Cmd.model_name r with
      | None => []
      | Some _ =>
          match Cmd.init r with
          | Some f =>
              (idx, fst (f s idx), snd (f s idx))
              :: init_answers rest (idx + 1) (snd (f s idx))
          | None => init_answers rest (idx + 1) s
          end
      end
  end.

(** The front of such a run, up to and including the first answer below
    zero. *)
Fixpoint to_first_failure (run : list (Z * Z * state))
  : list (Z * Z * state) :=
  match run with
  | [] => []
  | a :: rest =>
      if snd (fst a) <? 0 then [a] else a :: to_first_failure rest
  end.

(** The four fields of the handle that [compress_init] writes. *)
Definition same_compress_fields (a b : state) : Prop :=
  compress_model (knet_h a) = compress_model (knet_h b)
  /\ compress_level (knet_h a) = compress_level (knet_h b)
  /\ compress_threshold (knet_h a) = compress_threshold (knet_h b)
  /\ compress_max_model (knet_h a) = compress_max_model (knet_h b).

Section Compress_words.

Context {M : compress_modules} {L : knet_limits}.

(** The table is within the bound that [compress_init] tests. *)
Definition table_fits : Prop := get_max_model <= KNET_MAX_COMPRESS_METHODS.

(** No row of the table carries the name. *)
Definition unknown_model (name : string) : Prop :=
  forall i, get_model_by_idx i <> Some name.

(** The name is that of a row above 0 whose level check, run on the handle
    as [compress_init] has it at that point, answers below zero. *)
Definition level_rejected (s : state) (cfg : Cfg.t) : Prop :=
  0 < get_model (Cfg.compress_model cfg)
  /\ exists v s1,
       val_level (set_compress_max_model s get_max_model)
                 (get_model (Cfg.compress_model cfg))
                 (Cfg.compress_level cfg) = Some (v, s1)
       /\ v < 0.

(** The level checks of the table leave the compress fields of the handle
    as they find them. *)
Definition val_level_keeps_fields : Prop :=
  forall s idx level v s1,
    val_level s idx level = Some (v, s1) -> same_compress_fields s s1.

(** The codec that the table has at an index, row by row. *)
Definition compress_of (idx : Z) : option codec_fn :=
  match idx with
  | 1 => Some zlib_compress
  | 2 => Some lz4_compress
  | 3 => Some lz4hc_compress
  | 4 => Some lzo2_compress
  | 5 => Some lzma_compress
  | 6 => Some bzip2_compress
  | _ => None
  end.

Definition decompress_of (idx : Z) : option codec_fn :=
  match idx with
  | 1 => Some zlib_decompress
  | 2 => Some lz4_decompress
  | 3 => Some lz4_decompress
  | 4 => Some lzo2_decompress
  | 5 => Some lzma_decompress
  | 6 => Some bzip2_decompress
  | _ => None
  end.

End Compress_words.

(** An environment in which SCTP is not there: every address converts and
    every attempt to configure a link answers EPROTONOSUPPORT. *)
Definition no_sctp_env : link_env := {|
  AF_INET6 := 10;
  KNET_TRANSPORT_SCTP := 2;
  knet_strtoaddr := fun a p => (0, mk_sockaddr a p);
  knet_link_set_config := fun _ _ _ _ _ _ => (-1, EPROTONOSUPPORT)
|}.

(** An environment in which ports 1025 and 1026 are taken and the attempt
    on port 1027 is refused with EINVAL. *)
Definition refusing_env : link_env := {|
  AF_INET6 := 10;
  KNET_TRANSPORT_SCTP := 2;
  knet_strtoaddr := fun a p => (0, mk_sockaddr a p);
  knet_link_set_config := fun _ _ _ sa _ _ =>
    if sa_port sa <? 1027 then (-1, EADDRINUSE) else (-1, EINVAL)
|}.

Section Dyn_words.

Context {E : link_env}.

Variables (host_id link_id transport flags family dynamic : Z).
Variable addr : string.
Variable lo1 : option sockaddr.

(** The address that the round for [port] converts, and the answer of
    [knet_link_set_config] in that round: its return value and errno. *)
Definition converted (port : Z) : Z * sockaddr :=
  if family =? AF_INET6 then knet_strtoaddr "::1" port
  else knet_strtoaddr addr port.

Definition attempt (port : Z) : Z * Z :=
  if negb (dynamic =? 0) then
    knet_link_set_config host_id link_id transport
                         (snd (converted port)) None flags
  else
    knet_link_set_config host_id link_id transport
                         (snd (converted port)) lo1 flags.

(** The round for [port] finds the address in use. *)
Definition in_use (port : Z) : Prop :=
  0 <= fst (converted port)
  /\ fst (attempt port) < 0
  /\ snd (attempt port) = EADDRINUSE.

(** The round for [port] meets a configuration error other than an address
    in use; the library reports it with a negative value that is not the
    -2 of the harness. *)
Definition refused (port : Z) : Prop :=
  0 <= fst (converted port)
  /\ fst (attempt port) < 0
  /\ fst (attempt port) <> -2
  /\ snd (attempt port) <> EADDRINUSE.

Definition sctp_unsupported (port : Z) : bool :=
  (snd (attempt port) =? EPROTONOSUPPORT) && (transport =? KNET_TRANSPORT_SCTP).

End Dyn_words.

(** A payload that the receive loop takes for an ordinary message. *)
Definition ordinary (payload : string) : Prop :=
  payload <> "QUIT" /\ starts_with_0 payload = false.

(** ** More of tests/test-common.c *)

Definition EINTR : Z := 4.
Definition EIO : Z := 5.
Definition ETIMEDOUT : Z := 110.

(** *** [_read_pipe]

    A round of the loop as the function meets it: what [read] returned (the
    bytes it stored, none at end of file, or -1 with an errno) and, for a
    round that gets as far as [malloc] or [realloc], whether memory was
    found. *)
Inductive pipe_read :=
| Read_bytes (data : buffer) (alloc_ok : bool)
| Read_error (e : Z).

(** [*file] on return: [NULL], a live block with its bytes, or a pointer to
    a block that has been freed. *)
Inductive block :=
| Null
| Block (bytes : buffer)
| Freed.

Record piped := mk_piped {
  rp_ret : Z;
  rp_file : block;
  rp_length : Z
}.

Definition block_bytes (file : block) : buffer :=
  match file with
  | Block b => b
  | _ => []
  end.

(** [p[i] = v] on a block of bytes. *)
Fixpoint store_byte (b : buffer) (i : nat) (v : Byte.byte) : buffer :=
  match b, i with
  | [], _ => []
  | _ :: rest, O => v :: rest
  | x :: rest, S i' => x :: store_byte rest i' v
  end.

(** The [while (!done)] loop.  The byte by which the last [realloc] grows
    the block is not written by [memmove]; it stands as [xff] until the
    terminator is stored over it.  [None]: the rounds are used up and the
    loop is still reading. *)
Fixpoint read_pipe_loop (rounds : list pipe_read) (file : block) (length : Z)
  : option piped :=
  match rounds with
  | [] => None
  | Read_error e :: rest =>
      if e =? EINTR then read_pipe_loop rest file length
      else
        Some (mk_piped (-1)
                       (match file with Null => Null | _ => Freed end)
                       length)
  | Read_bytes data alloc_ok :: rest =>
      let n := Z.of_nat (List.length data) in
      if (n =? 0) && (length =? 0) then Some (mk_piped 0 file length)
      else
        let done := if n =? 0 then 1 else 0 in
        if alloc_ok then
          let bytes :=
            (block_bytes file ++ data
               ++ (if n =? 0 then [Byte.xff] else []))%list in
          let length' := length + (done + n) in
          if n =? 0 then
            Some (mk_piped 0
                    (Block (store_byte bytes (Z.to_nat (length' - 1)) Byte.x00))
                    length')
          else read_pipe_loop rest (Block bytes) length'
        else Some (mk_piped (-1) Null length)
  end.

Definition _read_pipe (rounds : list pipe_read) : option piped :=
  read_pipe_loop rounds Null 0.

(** *** C integers

    The range of [int], and the two conversions that the helpers below
    make: a value stored to a [size_t] is reduced modulo 2^64, and a value
    stored to an [int] that does not fit is reduced modulo 2^32 into the
    range of [int] (what gcc and clang define for the conversion). *)
Definition INT_MIN : Z := -2147483648.
Definition INT_MAX : Z := 2147483647.

Definition to_size_t (v : Z) : Z := v mod 18446744073709551616.

Definition to_int (v : Z) : Z := (v + 2147483648) mod 4294967296 - 2147483648.

(** [a * b] on [int]s.  A product outside the range of [int] is a signed
    overflow, which C leaves undefined: [None]. *)
Definition int_mul (a b : Z) : option Z :=
  if (INT_MIN <=? a * b) && (a * b <=? INT_MAX) then Some (a * b) else None.

(** *** [is_memcheck], [is_helgrind] and [wait_for_packet] *)

(** [val] is what [getenv] returned; [strncmp(val, "yes", 3)] is zero when
    [val] starts with "yes". *)
Definition is_memcheck (val : option string) : Z :=
  match val with
  | Some v => if String.prefix "yes" v then 1 else 0
  | None => 0
  end.

Definition is_helgrind (val : option string) : Z :=
  match val with
  | Some v => if String.prefix "yes" v then 1 else 0
  | None => 0
  end.

(** What one [select] returned and whether it left [datafd] in the set. *)
Record selected := mk_selected {
  sel_err : Z;
  sel_isset : bool
}.

Record waited := mk_waited {
  w_ret : Z;
  w_errno : option Z;       (* what the function itself stored to errno *)
  w_flushes : Z             (* calls of flush_logs *)
}.

(** From [try_again:] on, with [i] rounds behind. *)
Fixpoint wait_for_packet_from (selects : list selected) (seconds i : Z)
  : option waited :=
  match selects with
  | [] => None
  | s :: rest =>
      if (sel_err s =? 0) && (i <? seconds) then
        wait_for_packet_from rest seconds (i + 1)
      else if (sel_err s >? 0) && sel_isset s then
        Some (mk_waited 0 None i)
      else
        Some (mk_waited (-1) (Some ETIMEDOUT) i)
  end.

(** [seconds] is an [int], and so is [seconds * 16]: where that product
    overflows, the function has no defined result. *)
Definition wait_for_packet (KNETMEMCHECK KNETHELGRIND : option string)
  (seconds : Z) (selects : list selected) : option waited :=
  let seconds :=
    if negb (is_memcheck KNETMEMCHECK =? 0)
       || negb (is_helgrind KNETHELGRIND =? 0)
    then int_mul seconds 16 else Some seconds in
  match seconds with
  | Some seconds => wait_for_packet_from selects seconds 0
  | None => None
  end.

(** *** [_make_local_sockaddr] *)

(** A value stored to an [in_port_t] or a [knet_node_id_t]. *)
Definition to_uint16 (v : Z) : Z := v mod 65536.

(** The port chosen; [pid] is what [getpid] returned.  [%] is the C
    remainder. *)
Definition local_port (pid offset : Z) : Z :=
  if offset <? 0 then 0
  else to_uint16 (Z.rem (pid + offset) (65536 - 1024) + 1024).

Definition _make_local_sockaddr {E : link_env} (pid offset family : Z)
  : Z * sockaddr :=
  if family =? AF_INET6 then knet_strtoaddr "::1" (local_port pid offset)
  else knet_strtoaddr "127.0.0.1" (local_port pid offset).

(** *** [_knet_link_set_config] *)

Section Set_config.

Context {E : link_env}.

Variables (host_id link_id transport flags family dynamic : Z).

(** The [for (port = 1025; port < 65536; port++)] loop, as in
    [dyn_knet_link_set_config]: the address is the loopback, and a link that
    is not dynamic gets [lo] for both ends. *)
Fixpoint set_config_loop (fuel : nat) (port err savederrno : Z)
  (lo : option sockaddr) : option configured :=
  if port <? 65536 then
    match fuel with
    | O => None
    | S fuel' =>
        let (err, sa) :=
          if family =? AF_INET6 then knet_strtoaddr "::1" port
          else knet_strtoaddr "127.0.0.1" port in
        if err <? 0 then
          Some (mk_configured err savederrno (Some sa))
        else
          let (err, savederrno) :=
            if negb (dynamic =? 0) then
              knet_link_set_config host_id link_id transport sa None flags
            else
              knet_link_set_config host_id link_id transport sa (Some sa)
                                   flags in
          if (err <? 0) && negb (savederrno =? EADDRINUSE) then
            Some (mk_configured err savederrno (Some sa))
          else if err =? 0 then
            Some (mk_configured err savederrno (Some sa))
          else
            set_config_loop fuel' (port + 1) err savederrno (Some sa)
    end
  else
    Some (mk_configured err savederrno lo).

Definition _knet_link_set_config : option configured :=
  set_config_loop (Z.to_nat 65536) 1025 0 0 None.

End Set_config.

(** *** [start_logthread] and [stop_logthread]

    The statics of the log thread, the mutex that guards them and the
    number of log threads that run. *)
Record log_state := mk_log_state {
  log_thread_init : Z;
  log_thread_mutex_held : bool;
  log_threads : Z;
  data_logfd : Z;
  data_std : Z
}.

(** [lock_res] and [create_res] are what [pthread_mutex_lock] and
    [pthread_create] return; the latter is called only when no log thread
    has been started. *)
Definition start_logthread (lock_res create_res : Z) (logfd std : Z)
  (g : log_state) : Z * log_state :=
  if negb (lock_res =? 0) then (-1, g)
  else
    let g := mk_log_state (log_thread_init g) true (log_threads g)
                          (data_logfd g) (data_std g) in
    if log_thread_init g =? 0 then
      let g := mk_log_state (log_thread_init g) true (log_threads g)
                            logfd std in
      if negb (create_res =? 0) then
        (-1, mk_log_state (log_thread_init g) false (log_threads g)
                          (data_logfd g) (data_std g))
      else
        (0, mk_log_state 1 false (log_threads g + 1)
                         (data_logfd g) (data_std g))
    else
      (0, mk_log_state (log_thread_init g) false (log_threads g)
                       (data_logfd g) (data_std g)).

Definition stop_logthread (lock_res : Z) (g : log_state) : Z * log_state :=
  if negb (lock_res =? 0) then (-1, g)
  else
    let g := mk_log_state (log_thread_init g) true (log_threads g)
                          (data_logfd g) (data_std g) in
    if negb (log_thread_init g =? 0) then
      (0, mk_log_state 0 false (log_threads g - 1)
                       (data_logfd g) (data_std g))
    else
      (0, mk_log_state (log_thread_init g) false (log_threads g)
                       (data_logfd g) (data_std g)).

(** Calls of the two functions, with what the pthread functions answer. *)
Inductive log_call :=
| Call_start_logthread (lock_res create_res logfd std : Z)
| Call_stop_logthread (lock_res : Z).

Definition log_step (g : log_state) (c : log_call) : log_state :=
  match c with
  | Call_start_logthread l c fd std => snd (start_logthread l c fd std g)
  | Call_stop_logthread l => snd (stop_logthread l g)
  end.

Definition log_run (calls : list log_call) (g : log_state) : log_state :=
  fold_left log_step calls g.

(** One log thread when [log_thread_init] is set and none when it is not,
    and the mutex free. *)
Definition log_consistent (g : log_state) : Prop :=
  (log_thread_init g = 0 \/ log_thread_init g = 1)
  /\ log_threads g = log_thread_init g
  /\ log_thread_mutex_held g = false.

(** *** [knet_handle_start_nodes] and [knet_handle_stop_nodes]

    The array [knet_h[]] holds, for the indices that have been stored to,
    a handle or [NULL]; the latest store to an index comes first. *)
Definition node_array (core : Type) := list (Z * option core).

Definition node_at {core : Type} (arr : node_array core) (i : Z)
  : option core :=
  match find (fun e => fst e =? i) arr with
  | Some (_, h) => h
  | None => None
  end.

(** How [knet_handle_start_nodes] ends: it returns with the array filled,
    or it stops the nodes and exits. *)
Inductive started (core : Type) :=
| Started (arr : node_array core)
| Start_exited (stops : list (Z * stopped core)) (status : exit_status).
Arguments Started {core}.
Arguments Start_exited {core}.

Section Nodes.

Context {core : Type} {A : knet_api core}.

(** [knet_handle_new_ex(host_id, log_fd, default_log_level, flags)] of the
    library: a handle, or [NULL]. *)
Variable knet_handle_new_ex : Z -> Z -> Z -> Z -> option core.

(** [for (i = 1; i <= numnodes; i++)] of [knet_handle_stop_nodes], entered
    at [i]; [i] is a [uint8_t].  The value of each [knet_handle_stop] is
    dropped by the C code and kept here for the record.  [None] when [fuel]
    rounds do not end the loop. *)
Fixpoint stop_nodes_from (fuel : nat) (knet_h : node_array core)
  (numnodes i : Z) : option (list (Z * stopped core)) :=
  if i <=? numnodes then
    match fuel with
    | O => None
    | S fuel' =>
        match stop_nodes_from fuel' knet_h numnodes (to_uint8 (i + 1)) with
        | Some rest => Some ((i, knet_handle_stop (node_at knet_h i)) :: rest)
        | None => None
        end
    end
  else Some [].

Definition knet_handle_stop_nodes (fuel : nat) (knet_h : node_array core)
  (numnodes : Z) : option (list (Z * stopped core)) :=
  stop_nodes_from fuel knet_h numnodes 1.

(** The first loop of [knet_handle_start_nodes], entered at [i]: the array
    and the value of [i] when the loop is left. *)
Fixpoint start_nodes_from (fuel : nat) (knet_h : node_array core)
  (numnodes logfd log_level i : Z) : option (node_array core * Z) :=
  if i <=? numnodes then
    match fuel with
    | O => None
    | S fuel' =>
        match knet_handle_new_ex i logfd log_level 0 with
        | None => Some ((i, None) :: knet_h, i)
        | Some h =>
            start_nodes_from fuel' ((i, Some h) :: knet_h) numnodes logfd
                             log_level (to_uint8 (i + 1))
        end
    end
  else Some (knet_h, i).

Definition knet_handle_start_nodes (fuel : nat) (knet_h : node_array core)
  (numnodes logfd log_level : Z) : option (started core) :=
  match start_nodes_from fuel knet_h numnodes logfd log_level 1 with
  | None => None
  | Some (knet_h, i) =>
      if i <? numnodes then
        match knet_handle_stop_nodes fuel knet_h i with
        | Some stops => Some (Start_exited stops FAIL)
        | None => None
        end
      else Some (Started knet_h)
  end.

End Nodes.

(** The indices 1 to [n]. *)
Definition node_ids (n : nat) : list Z := map Z.of_nat (seq 1 n).

(** *** [count_nodes], [wait_for_nodes_state] and [wait_for_host]

    [host_index] is the table of the handle: for each host id, [NULL] or a
    host with its [status.reachable]. *)
Definition count_nodes (host_index : list (option Z)) : Z :=
  fold_left
    (fun nodes h =>
       match h with
       | Some reachable => if reachable =? 1 then nodes + 1 else nodes
       | None => nodes
       end)
    host_index 0.

(** What the two functions do besides returning. *)
Inductive wait_step :=
| Enable_notify
| Disable_notify
| Lock_wait_mutex
| Timedwait (seconds : Z)
| Unlock_wait_mutex
| Flush
| Sleep (seconds : Z).

Record waited_for := mk_waited_for {
  wf_ret : Z;
  wf_steps : list wait_step
}.

(** [lock_res] is what [pthread_mutex_lock] returns; [res] and [wait_errno]
    are what [pthread_cond_timedwait] returns and the [errno] after it.
    [wait_for_nodes_state] looks at [errno] only to print a message.
    [numnodes] is a [size_t] and [target] an [int]: [numnodes - 1] is
    computed on [size_t] and narrowed when it is stored. *)
Definition wait_target (numnodes state : Z) : Z :=
  if negb (state =? 0) then to_int (to_size_t (numnodes - 1)) else 0.

Definition wait_for_nodes_state (host_index : list (option Z))
  (numnodes state timeout : Z) (lock_res res : Z) : waited_for :=
  let target := wait_target numnodes state in
  if count_nodes host_index =? target then
    mk_waited_for 0 [Enable_notify; Disable_notify; Flush]
  else if negb (lock_res =? 0) then
    mk_waited_for (-1) [Enable_notify]
  else
    mk_waited_for res
      [Enable_notify; Lock_wait_mutex; Timedwait timeout; Unlock_wait_mutex;
       Disable_notify; Flush].

(** [reachable] is [knet_h->host_index[host_id]->status.reachable]; the
    host is taken to be there. *)
Definition wait_for_host (KNETMEMCHECK KNETHELGRIND : option string)
  (reachable : Z) (seconds : Z) (lock_res res wait_errno : Z) : waited_for :=
  let valgrind :=
    negb (is_memcheck KNETMEMCHECK =? 0)
    || negb (is_helgrind KNETHELGRIND =? 0) in
  let seconds := if valgrind then seconds * 16 else seconds in
  if reachable =? 1 then
    mk_waited_for 0 [Enable_notify; Disable_notify; Flush]
  else if negb (lock_res =? 0) then
    mk_waited_for (-1) [Enable_notify]
  else if (res =? -1) && (wait_errno =? ETIMEDOUT) then
    mk_waited_for (-1)
      [Enable_notify; Lock_wait_mutex; Timedwait seconds; Disable_notify;
       Unlock_wait_mutex; Flush]
  else
    mk_waited_for 0
      [Enable_notify; Lock_wait_mutex; Timedwait seconds; Unlock_wait_mutex;
       Disable_notify; Flush; Sleep (if valgrind then 1 * 16 else 1)].

(** ** More of tests/fun_dynamic_check.c *)

(** Of <poll.h>. *)
Definition POLLIN : Z := 1.

(** *** [dhost_filter]: the value returned, [dst_host_ids[0]] and
    [*dst_host_ids_entries]; [*dst_channel] is not written. *)
Definition dhost_filter (src_host_id : Z) : Z * Z * Z :=
  (0, to_uint16 (3 - src_host_id), 1).

(** *** [wait_for_reply]

    [poll_res] and [revents] are what [poll] returns and leaves in
    [pfds.revents]; [read_res] is what [read] returns when it is called.
    The result is the value returned and what the function itself stored to
    errno. *)
Definition wait_for_reply (poll_res revents read_res : Z) : Z * option Z :=
  let after_poll : option (Z * option Z) :=
    if poll_res =? 1 then
      if negb (Z.land revents POLLIN =? 0) then
        if read_res >? 0 then None else Some (read_res, None)
      else Some (poll_res, Some EIO)
    else Some (poll_res, None) in
  match after_poll with
  | None => (0, None)
  | Some (res, e) => if res =? 0 then (-1, Some ETIMEDOUT) else (-1, e)
  end.

(** A teardown that returns 0 has [knet_handle_free] for its last call; any
    other teardown returns -1. *)
Definition ends_well {core : Type} (r : stopped core) : Prop :=
  (stop_ret r = 0 /\ exists pre, stop_calls r = (pre ++ [Handle_free])%list)
  \/ stop_ret r = -1.

(** The bytes that the rounds of [_read_pipe] deliver, in order. *)
Definition pipe_data (rounds : list pipe_read) : buffer :=
  flat_map (fun r => match r with
                     | Read_bytes data _ => data
                     | Read_error _ => []
                     end) rounds.

(** A round that keeps [_read_pipe] reading: bytes for which memory is
    found, or an interrupted [read]. *)
Definition reading (r : pipe_read) : Prop :=
  match r with
  | Read_bytes data alloc_ok => data <> [] /\ alloc_ok = true
  | Read_error e => e = EINTR
  end.

(** [*file] while [acc] has been collected. *)
Definition collected (acc : buffer) : block :=
  match acc with
  | [] => Null
  | _ :: _ => Block acc
  end.

(** The number of seconds that the waiting functions use. *)
Definition under_valgrind (KNETMEMCHECK KNETHELGRIND : option string) : bool :=
  negb (is_memcheck KNETMEMCHECK =? 0) || negb (is_helgrind KNETHELGRIND =? 0).

(** A library that creates handles for nodes 1 and 2 and has none left for
    node 3. *)
Definition two_handles_only (host_id logfd log_level flags : Z)
  : option handle :=
  if host_id <? 3 then Some (mk_core false [] false) else None.

(** An environment in which ports 1025 and 1026 are taken and port 1027 is
    free. *)
Definition third_port_env : link_env := {|
  AF_INET6 := 10;
  KNET_TRANSPORT_SCTP := 2;
  knet_strtoaddr := fun a p => (0, mk_sockaddr a p);
  knet_link_set_config := fun _ _ _ sa _ _ =>
    if sa_port sa <? 1027 then (-1, EADDRINUSE) else (0, 0)
|}.

(** An environment in which every port is taken. *)
Definition busy_env : link_env := {|
  AF_INET6 := 10;
  KNET_TRANSPORT_SCTP := 2;
  knet_strtoaddr := fun a p => (0, mk_sockaddr a p);
  knet_link_set_config := fun _ _ _ _ _ _ => (-1, EADDRINUSE)
|}.

(** Case analysis on an index of the seven named rows. *)
Ltac split_index i :=
  let H := fresh "Hcase" in
  assert (H : i = 0 \/ i = 1 \/ i = 2 \/ i = 3 \/ i = 4 \/ i = 5 \/ i = 6)
    by lia;
  repeat (destruct H as [H | H]); subst i.

(** Steps into [compress_init] past the test of the bound, which
    [Hfit : table_fits] decides. *)
Ltac past_bound_check Hfit :=
  unfold table_fits in Hfit; unfold compress_init; cbv zeta;
  match goal with
  | |- context [compress_max_model (knet_h (set_compress_max_model ?s ?m))] =>
      change (compress_max_model (knet_h (set_compress_max_model s m))) with m
  end;
  match goal with
  | |- context [?m >? KNET_MAX_COMPRESS_METHODS] =>
      destruct (Z.gtb_spec m KNET_MAX_COMPRESS_METHODS); [lia |]
  end.

(** * Properties *)

(** ** The table and its lookups *)

Section Table.

Context {M : compress_modules} {L : knet_limits}.

Lemma table_names :
  map Cmd.model_name compress_modules_cmds
  = (map Some registered_names ++ [None])%list.
Proof. reflexivity. Qed.

Lemma table_length : List.length compress_modules_cmds = 8%nat.
Proof. reflexivity. Qed.

Lemma cmds_at_outside idx : idx < 0 \/ 8 <= idx -> cmds_at idx = None.
Proof.
  intros [Hneg | Hbig]; unfold cmds_at.
  - apply Z.ltb_lt in Hneg. now rewrite Hneg.
  - destruct (idx <? 0); [reflexivity |].
    apply nth_error_None. rewrite table_length. lia.
Qed.


(** [get_model] is the chain of comparisons that the loop makes. *)
Lemma get_model_chain name :
  get_model name =
  if String.eqb "none" name then 0
  else if String.eqb "zlib" name then 1
  else if String.eqb "lz4" name then 2
  else if String.eqb "lz4hc" name then 3
  else if String.eqb "lzo2" name then 4
  else if String.eqb "lzma" name then 5
  else if String.eqb "bzip2" name then 6
  else -1.
Proof. reflexivity. Qed.

Lemma get_model_range name : -1 <= get_model name <= 6.
Proof.
  rewrite get_model_chain.
  repeat match goal with
         | |- context [String.eqb ?a name] => destruct (String.eqb a name)
         end; lia.
Qed.

(** A name that is found is the name of the row found. *)
Lemma get_model_found name i :
  get_model name = i -> 0 <= i -> get_model_by_idx i = Some name.
Proof.
  rewrite get_model_chain. intros Hi Hpos.
  repeat match type of Hi with
         | context [String.eqb ?a name] =>
             destruct (String.eqb_spec a name) as [<- | ?]
         end; subst i; try reflexivity; lia.
Qed.

(** X2.  On any table, the loop of [get_model] returns the index of the
    first row that carries the name: the row returned carries it and every
    row before it carries another name; and it returns -1 exactly when no
    row before the first nameless row carries the name. *)
Lemma get_model_from_first rows name idx :
  0 <= idx ->
  (get_model_from rows name idx = -1
   /\ ~ In name (names_before_null rows))
  \/ (idx <= get_model_from rows name idx
      /\ (exists r,
            nth_error rows (Z.to_nat (get_model_from rows name idx - idx))
            = Some r
            /\ Cmd.model_name r = Some name)
      /\ forall j, idx <= j < get_model_from rows name idx ->
           exists r other, nth_error rows (Z.to_nat (j - idx)) = Some r
                           /\ Cmd.model_name r = Some other /\ other <> name).
Proof.
  revert idx. induction rows as [| r rest IH]; intros idx Hidx; simpl.
  - left. split; [reflexivity | intros []].
  - destruct (Cmd.model_name r) as [n |] eqn:Hn.
    + destruct (String.eqb_spec n name) as [-> | Hne].
      * right. split; [lia |]. split.
        -- exists r. rewrite Z.sub_diag. simpl. auto.
        -- intros j Hj. lia.
      * destruct (IH (idx + 1) ltac:(lia))
          as [[Hret Hnot] | (Hle & (r' & Hnth & Hname) & Hbefore)].
        -- left. split; [assumption |].
           intros [Heq | Hin]; [congruence | contradiction].
        -- right. split; [lia |]. split.
           ++ exists r'. split; [| assumption].
              replace (Z.to_nat (get_model_from rest name (idx + 1) - idx))
                with (S (Z.to_nat (get_model_from rest name (idx + 1)
                                   - (idx + 1)))) by lia.
              exact Hnth.
           ++ intros j Hj. destruct (Z.eq_dec j idx) as [-> | Hjne].
              ** exists r, n. rewrite Z.sub_diag. simpl. auto.
              ** destruct (Hbefore j ltac:(lia))
                   as (r'' & o & Hnth' & Ho & Hdiff).
                 exists r'', o. repeat split; auto.
                 replace (Z.to_nat (j - idx))
                   with (S (Z.to_nat (j - (idx + 1)))) by lia.
                 exact Hnth'.
    + left. split; [reflexivity | intros []].
Qed.

Lemma get_model_unknown name : unknown_model name -> get_model name = -1.
Proof.
  intros Hun.
  destruct (Z.eq_dec (get_model name) (-1)) as [| Hne]; [assumption |].
  exfalso. apply (Hun (get_model name)).
  apply get_model_found; [reflexivity |].
  pose proof (get_model_range name). lia.
Qed.

(** Rows appended behind named rows leave the index of every name that the
    named rows carry where it was. *)
Lemma get_model_from_app rows extra name idx :
  Forall (fun r => Cmd.model_name r <> None) rows ->
  In (Some name) (map Cmd.model_name rows) ->
  get_model_from (rows ++ extra) name idx = get_model_from rows name idx.
Proof.
  intros Hnamed. revert idx.
  induction Hnamed as [| r rest Hr Hrest IH]; intros idx Hin; simpl in *.
  - contradiction.
  - destruct (Cmd.model_name r) as [n |] eqn:Hn; [| congruence].
    destruct (String.eqb_spec n name) as [-> | Hne]; [reflexivity |].
    apply IH. destruct Hin as [Heq | Hin]; [congruence | assumption].
Qed.

(** C1.  Positions 0 to 6 of the table carry the names none, zlib, lz4,
    lz4hc, lzo2, lzma and bzip2 in this order, followed by the nameless row
    that ends the table; row 0 is none and has no function at all.  For
    every index from 0 to 6 the name at that index is looked up to the same
    index, and it still is when rows are added behind the seven. *)
Theorem table_indices_fixed i :
  0 <= i <= 6 ->
  map Cmd.model_name compress_modules_cmds
  = (map Some registered_names ++ [None])%list
  /\ cmds_at 0 = Some (Cmd.mk (Some "none") None None None None None)
  /\ exists name,
       nth_error registered_names (Z.to_nat i) = Some name
       /\ get_model_by_idx i = Some name
       /\ get_model name = i
       /\ forall extra,
            get_model_from (firstn 7 compress_modules_cmds ++ extra) name 0 = i.
Proof.
  intros Hi. split; [reflexivity |]. split; [reflexivity |].
  split_index i;
    match goal with
    | |- exists n, nth_error _ (Z.to_nat ?k) = _ /\ _ =>
        let n := eval vm_compute in (nth (Z.to_nat k) registered_names "") in
        exists n
    end;
    (split; [reflexivity |]); (split; [reflexivity |]);
    (split; [reflexivity |]);
    intros extra;
    (rewrite get_model_from_app;
     [reflexivity
     | repeat constructor; discriminate
     | simpl; tauto]).
Qed.

End Table.

Lemma table_indices_fixed_witness :
  exists name,
    nth_error registered_names (Z.to_nat 3) = Some name
    /\ @get_model_by_idx store_modules 3 = Some name
    /\ @get_model store_modules name = 3
    /\ forall extra,
         get_model_from (firstn 7 (@compress_modules_cmds store_modules)
                           ++ extra) name 0 = 3.
Proof.
  apply (@table_indices_fixed store_modules 3). lia.
Defined.

(** ** [compress_init] *)

Section Init.

Context {M : compress_modules} {L : knet_limits}.

Lemma val_level_defined s idx level :
  1 <= idx <= 6 -> exists v s1, val_level s idx level = Some (v, s1).
Proof.
  intros Hidx.
  assert (Hcase : idx = 1 \/ idx = 2 \/ idx = 3 \/ idx = 4 \/ idx = 5 \/ idx = 6)
    by lia.
  repeat (destruct Hcase as [Hcase | Hcase]); subst idx;
    unfold val_level; simpl;
    match goal with
    | |- exists v s1, Some (?f s level) = _ =>
        exists (fst (f s level)), (snd (f s level));
        now destruct (f s level)
    end.
Qed.

(** X3.  [compress_init] returns: no call of it runs into a row or a
    pointer that is not there. *)
Lemma compress_init_defined s cfg : exists r, compress_init s cfg = Some r.
Proof.
  unfold compress_init. cbv zeta.
  destruct (_ >? KNET_MAX_COMPRESS_METHODS); [eauto |].
  destruct cfg as [cfg |]; [| eauto].
  pose proof (get_model_range (Cfg.compress_model cfg)) as Hrange.
  destruct (Z.ltb_spec (get_model (Cfg.compress_model cfg)) 0); [eauto |].
  destruct (Z.gtb_spec (get_model (Cfg.compress_model cfg)) 0); [| eauto].
  destruct (val_level_defined (set_compress_max_model s get_max_model)
              (get_model (Cfg.compress_model cfg)) (Cfg.compress_level cfg))
    as (v & s1 & ->); [lia | eauto].
Qed.

(** C2.  With a cfg that names an algorithm of index above 0 whose level
    check accepts the level: when the threshold of the cfg is above
    KNET_MAX_PACKET_SIZE, [compress_init] returns -1 with errno EINVAL;
    otherwise it returns 0 with the index and the level stored on the
    handle, and with the threshold stored being KNET_COMPRESS_THRESHOLD when
    the cfg has 0 and that of the cfg when it has anything else. *)
Theorem compress_init_stores s cfg idx v s1 :
  table_fits ->
  get_model (Cfg.compress_model cfg) = idx ->
  0 < idx ->
  val_level (set_compress_max_model s get_max_model) idx
            (Cfg.compress_level cfg) = Some (v, s1) ->
  0 <= v ->
  exists r,
    compress_init s (Some cfg) = Some r
    /\ if Cfg.compress_threshold cfg >? KNET_MAX_PACKET_SIZE then
         ret r = -1 /\ errno (st r) = EINVAL
       else
         ret r = 0
         /\ compress_model (knet_h (st r)) = idx
         /\ compress_level (knet_h (st r)) = Cfg.compress_level cfg
         /\ compress_threshold (knet_h (st r))
            = if Cfg.compress_threshold cfg =? 0 then KNET_COMPRESS_THRESHOLD
              else Cfg.compress_threshold cfg.
Proof.
  intros Hfit Hidx Hpos Hval Hv.
  past_bound_check Hfit.
  rewrite Hidx, Hval.
  destruct (Z.ltb_spec idx 0); [lia |].
  destruct (Z.gtb_spec idx 0); [| lia].
  destruct (Z.ltb_spec v 0); [lia |].
  eexists. split; [reflexivity |].
  destruct (Cfg.compress_threshold cfg >? KNET_MAX_PACKET_SIZE).
  - split; reflexivity.
  - destruct (Cfg.compress_threshold cfg =? 0); repeat split; reflexivity.
Qed.

(** C3.  With a cfg whose name no row of the table carries, and with a cfg
    whose name is that of a row above 0 whose level check answers below
    zero, [compress_init] returns -1 with errno EINVAL. *)
Theorem compress_init_rejects s cfg :
  unknown_model (Cfg.compress_model cfg) \/ level_rejected s cfg ->
  exists r,
    compress_init s (Some cfg) = Some r
    /\ ret r = -1
    /\ errno (st r) = EINVAL.
Proof.
  intros Hbad. unfold compress_init. cbv zeta.
  destruct (_ >? KNET_MAX_COMPRESS_METHODS).
  { eexists. split; [reflexivity |]. split; reflexivity. }
  destruct Hbad as [Hun | (Hpos & v & s1 & Hval & Hv)].
  - rewrite (get_model_unknown _ Hun). simpl.
    eexists. split; [reflexivity |]. split; reflexivity.
  - rewrite Hval.
    destruct (Z.ltb_spec (get_model (Cfg.compress_model cfg)) 0); [lia |].
    destruct (Z.gtb_spec (get_model (Cfg.compress_model cfg)) 0); [| lia].
    destruct (Z.ltb_spec v 0); [| lia].
    eexists. split; [reflexivity |]. split; reflexivity.
Qed.

(** C10.  When [compress_init], called with a cfg, returns anything but 0,
    the handle has the compress_model, compress_level and
    compress_threshold that it had before the call, and its
    compress_max_model is the last index of the table.  The level checks
    are taken not to write these fields themselves. *)
Theorem compress_init_error_keeps_selection s cfg r :
  val_level_keeps_fields ->
  compress_init s (Some cfg) = Some r ->
  ret r <> 0 ->
  compress_model (knet_h (st r)) = compress_model (knet_h s)
  /\ compress_level (knet_h (st r)) = compress_level (knet_h s)
  /\ compress_threshold (knet_h (st r)) = compress_threshold (knet_h s)
  /\ compress_max_model (knet_h (st r)) = get_max_model.
Proof.
  intros Hkeep. unfold compress_init. cbv zeta.
  destruct (_ >? KNET_MAX_COMPRESS_METHODS).
  { intros [= <-] _. repeat split; reflexivity. }
  destruct (_ <? 0).
  { intros [= <-] _. repeat split; reflexivity. }
  destruct (_ >? 0).
  - destruct (val_level _ _ _) as [[v s1] |] eqn:Hval; [| discriminate].
    destruct (Hkeep _ _ _ _ _ Hval) as (Hm & Hl & Ht & Hx).
    simpl in Hm, Hl, Ht, Hx.
    destruct (v <? 0).
    { intros [= <-] _. simpl. repeat split; congruence. }
    destruct (_ >? KNET_MAX_PACKET_SIZE).
    { intros [= <-] _. simpl. repeat split; congruence. }
    destruct (_ =? 0); intros [= <-] Hret; simpl in Hret; congruence.
  - intros [= <-] Hret. simpl in Hret. congruence.
Qed.

Lemma last_cons {A : Type} (a d : A) l : last (a :: l) d = last l a.
Proof.
  revert a d. induction l as [| b l IH]; intros a d; [reflexivity |].
  change (last (a :: b :: l) d) with (last (b :: l) d).
  now rewrite (IH b d), (IH b a).
Qed.

Lemma init_answers_declared rows idx s :
  map (fun a => fst (fst a)) (init_answers rows idx s)
  = declares_init rows idx.
Proof.
  revert idx s. induction rows as [| r rest IH]; intros idx s; simpl.
  - reflexivity.
  - destruct (Cmd.model_name r); [| reflexivity].
    destruct (Cmd.init r) as [f |]; simpl; [now rewrite IH | apply IH].
Qed.

(** X7.  Which hooks the loop for an absent cfg calls, on any table: the
    rows that declare an [init] hook, in the order of the table and each on
    the handle as the one before left it, up to and including the first
    whose hook answers below zero, and none after that one.  When no hook
    called answers below zero the loop returns 0; otherwise it returns -1
    with errno EINVAL.  Either way the handle is as the last hook called
    left it. *)
Lemma init_from_calls rows idx s :
  let run := to_first_failure (init_answers rows idx s) in
  map (fun a => fst (fst a)) (init_answers rows idx s)
  = declares_init rows idx
  /\ hook_calls (calls (init_from rows idx s))
     = map (fun a => Call_init (fst (fst a))) run
  /\ if forallb (fun a => 0 <=? snd (fst a)) run then
       ret (init_from rows idx s) = 0
       /\ st (init_from rows idx s) = last (map snd run) s
     else
       ret (init_from rows idx s) = -1
       /\ st (init_from rows idx s) = set_errno (last (map snd run) s) EINVAL.
Proof.
  cbv zeta. split; [apply init_answers_declared |].
  revert idx s. induction rows as [| r rest IH]; intros idx s; simpl.
  - repeat split; reflexivity.
  - destruct (Cmd.model_name r) as [name |].
    + destruct (Cmd.init r) as [f |].
      * destruct (f s idx) as [v s1]. cbn [fst snd to_first_failure].
        destruct (Z.ltb_spec v 0) as [Hneg | Hpos].
        -- cbn [map forallb fst snd andb].
           destruct (Z.leb_spec 0 v); [lia |].
           repeat split; reflexivity.
        -- destruct (IH (idx + 1) s1) as [Hcalls Hret].
           cbn [map forallb fst snd calls emit hook_calls filter] in *.
           fold (hook_calls (calls (init_from rest (idx + 1) s1))).
           rewrite Hcalls. split; [reflexivity |].
           destruct (Z.leb_spec 0 v); [| lia]. cbn [andb].
           rewrite last_cons. exact Hret.
      * apply IH.
    + repeat split; reflexivity.
Qed.

(** C4, as the code has it.  With an absent cfg, [compress_init] calls the
    [init] hooks of the rows that declare one in the order of the table,
    which is the hook of lzo2 at index 4; it returns 0 when the hook answers
    zero or above, and -1 with errno EINVAL when the hook answers below
    zero. *)
Theorem compress_init_absent_cfg s :
  table_fits ->
  exists r,
    compress_init s None = Some r
    /\ hook_calls (calls r)
       = map Call_init (declares_init compress_modules_cmds 0)
    /\ (0 <= fst (lzo2_init (set_compress_max_model s get_max_model) 4) ->
        ret r = 0
        /\ st r = snd (lzo2_init (set_compress_max_model s get_max_model) 4))
    /\ (fst (lzo2_init (set_compress_max_model s get_max_model) 4) < 0 ->
        ret r = -1 /\ errno (st r) = EINVAL).
Proof.
  intros Hfit. past_bound_check Hfit.
  eexists. split; [reflexivity |]. simpl.
  destruct (lzo2_init (set_compress_max_model s get_max_model) 4) as [v s1].
  simpl. destruct (Z.ltb_spec v 0); simpl.
  - split; [reflexivity |]. split; [lia | intros _; split; reflexivity].
  - split; [reflexivity |]. split; [intros _; split; reflexivity | lia].
Qed.

End Init.

Lemma compress_init_stores_witness :
  exists r,
    @compress_init store_modules store_limits fresh_state
      (Some (Cfg.mk "lz4" 1 0)) = Some r
    /\ ret r = 0
    /\ compress_model (knet_h (st r)) = 2
    /\ compress_level (knet_h (st r)) = 1
    /\ compress_threshold (knet_h (st r)) = 100.
Proof.
  apply (@compress_init_stores store_modules store_limits fresh_state
           (Cfg.mk "lz4" 1 0) 2 0
           (@set_compress_max_model fresh_state 6)).
  - unfold table_fits. vm_compute. discriminate.
  - reflexivity.
  - lia.
  - reflexivity.
  - lia.
Defined.

Lemma compress_init_rejects_witness :
  exists r,
    @compress_init store_modules store_limits fresh_state
      (Some (Cfg.mk "zlib" 10 0)) = Some r
    /\ ret r = -1
    /\ errno (st r) = EINVAL.
Proof.
  apply (@compress_init_rejects store_modules store_limits).
  right. split.
  - vm_compute. reflexivity.
  - exists (-1), (set_errno (set_compress_max_model fresh_state 6) EINVAL).
    split; [reflexivity | lia].
Defined.

Lemma store_modules_keep_fields : @val_level_keeps_fields store_modules.
Proof.
  intros s idx level v s1. unfold val_level, cmds_at.
  destruct (idx <? 0); [discriminate |].
  destruct (Z.to_nat idx) as [| [| [| [| [| [| [| [| n]]]]]]]]; simpl;
    try discriminate;
    try (destruct n; discriminate);
    unfold level_between;
    try match goal with
        | |- context [if ?c then _ else _] => destruct c
        end;
    intros [= <- <-]; repeat split; reflexivity.
Defined.

Lemma compress_init_error_keeps_selection_witness :
  let r := {| ret := -1;
              st := set_errno (set_compress_max_model fresh_state 6) EINVAL;
              calls := [Log_debug "Initizializing compress module [%s/%d/%u]";
                        Log_err "compress model %s not supported"] |} in
  compress_model (knet_h (st r)) = compress_model (knet_h fresh_state)
  /\ compress_level (knet_h (st r)) = compress_level (knet_h fresh_state)
  /\ compress_threshold (knet_h (st r)) = compress_threshold (knet_h fresh_state)
  /\ compress_max_model (knet_h (st r)) = @get_max_model store_modules.
Proof.
  intros r.
  apply (@compress_init_error_keeps_selection store_modules store_limits
           fresh_state (Cfg.mk "snappy" 1 0) r).
  - exact store_modules_keep_fields.
  - reflexivity.
  - simpl. lia.
Defined.

(** C4 as the specification words it ("and returns success") does not
    hold: with a module set whose lzo2 finds no work memory, [compress_init]
    with an absent cfg returns -1. *)
Lemma compress_init_absent_cfg_not_always_success :
  ~ (forall (M : compress_modules) (L : knet_limits) (s : state),
       @table_fits M L ->
       exists r,
         @compress_init M L s None = Some r
         /\ hook_calls (calls r)
            = map Call_init (declares_init (@compress_modules_cmds M) 0)
         /\ ret r = 0).
Proof.
  intros Hall.
  destruct (Hall oom_modules store_limits fresh_state) as (r & Hr & _ & Hret).
  - unfold table_fits. vm_compute. discriminate.
  - vm_compute in Hr. injection Hr as <-. simpl in Hret. discriminate.
Qed.

Lemma compress_init_absent_cfg_witness :
  exists r,
    @compress_init store_modules store_limits fresh_state None = Some r
    /\ hook_calls (calls r) = [Call_init 4]
    /\ ret r = 0
    /\ st r = set_compress_int_data
                (set_compress_max_model fresh_state 6) 4 (Some []).
Proof.
  destruct (@compress_init_absent_cfg store_modules store_limits fresh_state)
    as (r & Hr & Hcalls & Hok & _).
  - unfold table_fits. vm_compute. discriminate.
  - exists r. split; [exact Hr |]. split; [exact Hcalls |].
    apply Hok. simpl. lia.
Defined.

(** ** [compress_fini], [compress] and [decompress] *)





Section Fini_and_dispatch.

Context {M : compress_modules} {L : knet_limits}.

Lemma declares_fini_from rows idx :
  Forall (fun i => idx <= i) (declares_fini rows idx).
Proof.
  revert idx. induction rows as [| r rest IH]; intros idx; simpl.
  - constructor.
  - destruct (Cmd.model_name r); [| constructor].
    assert (Hrest : Forall (fun i => idx <= i) (declares_fini rest (idx + 1))).
    { eapply Forall_impl; [| apply IH]. simpl. intros; lia. }
    destruct (Cmd.fini r); [constructor; [lia | assumption] | assumption].
Qed.

(** X8.  Which hooks the loop of [compress_fini] calls, on any table: those
    of the rows that declare a [fini] hook and whose index is below
    KNET_MAX_COMPRESS_METHODS, in the order of the table. *)
Lemma fini_from_calls rows idx s :
  snd (fini_from rows idx s)
  = map Call_fini
        (filter (fun i => i <? KNET_MAX_COMPRESS_METHODS)
                (declares_fini rows idx)).
Proof.
  revert idx s. induction rows as [| r rest IH]; intros idx s; simpl.
  - reflexivity.
  - destruct (Cmd.model_name r); [| reflexivity].
    destruct (Z.ltb_spec idx KNET_MAX_COMPRESS_METHODS) as [Hlt | Hge].
    + destruct (Cmd.fini r) as [f |]; simpl.
      * apply Z.ltb_lt in Hlt. rewrite Hlt.
        specialize (IH (idx + 1) (f s idx)).
        destruct (fini_from rest (idx + 1) (f s idx)). simpl in *.
        now rewrite IH.
      * apply IH.
    + simpl. symmetry.
      assert (Hnone : forall l, Forall (fun i => idx <= i) l ->
                filter (fun i => i <? KNET_MAX_COMPRESS_METHODS) l = []).
      { induction 1 as [| i l Hi _ IHl]; simpl; [reflexivity |].
        destruct (Z.ltb_spec i KNET_MAX_COMPRESS_METHODS); [lia | exact IHl]. }
      rewrite Hnone; [reflexivity |].
      destruct (Cmd.fini r).
      * constructor; [lia |].
        eapply Forall_impl; [| apply declares_fini_from]. simpl. intros; lia.
      * eapply Forall_impl; [| apply declares_fini_from]. simpl. intros; lia.
Qed.



Lemma cmds_at_cases idx :
  idx < 0 \/ 8 <= idx
  \/ idx = 0 \/ idx = 1 \/ idx = 2 \/ idx = 3 \/ idx = 4 \/ idx = 5
  \/ idx = 6 \/ idx = 7.
Proof. lia. Qed.

(** C5.  [compress] calls the compress function of the row whose index is
    the compress_model of the handle, and [decompress] the decompress
    function of the row whose index is its argument, whatever the
    compress_model of the handle is; each is undefined where that row has
    no such function. *)
Theorem dispatch_by_index s buf_in buf_in_len buf_out_len :
  compress s buf_in buf_in_len buf_out_len
  = option_map (fun f => f s buf_in buf_in_len buf_out_len)
               (compress_of (compress_model (knet_h s)))
  /\ forall idx,
       decompress s idx buf_in buf_in_len buf_out_len
       = option_map (fun f => f s buf_in buf_in_len buf_out_len)
                    (decompress_of idx).
Proof.
  split.
  - unfold compress.
    destruct (cmds_at_cases (compress_model (knet_h s))) as [Hout | Hin].
    + rewrite (cmds_at_outside _ (or_introl Hout)).
      destruct (compress_model (knet_h s)); try reflexivity; lia.
    + destruct Hin as [Hout | Hin].
      * rewrite (cmds_at_outside _ (or_intror Hout)).
        destruct (compress_model (knet_h s)) as [| p | p]; try lia.
        do 4 (destruct p as [p | p |]; try reflexivity; try lia).
      * repeat (destruct Hin as [Hin | Hin]); rewrite Hin; reflexivity.
  - intros idx. unfold decompress.
    destruct (cmds_at_cases idx) as [Hout | Hin].
    + rewrite (cmds_at_outside _ (or_introl Hout)).
      destruct idx; try reflexivity; lia.
    + destruct Hin as [Hout | Hin].
      * rewrite (cmds_at_outside _ (or_intror Hout)).
        destruct idx as [| p | p]; try lia.
        do 4 (destruct p as [p | p |]; try reflexivity; try lia).
      * repeat (destruct Hin as [Hin | Hin]); rewrite Hin; reflexivity.
Qed.

(** The two indices are apart: on a handle that has any algorithm selected,
    [decompress] with index 2 runs the lz4 decoder. *)
Corollary decompress_ignores_selection s m buf_in buf_in_len buf_out_len :
  decompress (set_compress_model s m) 2 buf_in buf_in_len buf_out_len
  = Some (lz4_decompress (set_compress_model s m) buf_in buf_in_len buf_out_len).
Proof. reflexivity. Qed.

End Fini_and_dispatch.


(** ** [knet_handle_stop] *)

Section Stop_any_library.

Context {core : Type} {A : knet_api core}.

(** Whatever the library answers, the first call of a teardown switches
    forwarding off. *)
Lemma knet_handle_stop_starts_with_setfwd h :
  exists rest, stop_calls (knet_handle_stop (Some h)) = Setfwd 0 :: rest.
Proof.
  unfold knet_handle_stop. destruct (knet_handle_setfwd h 0) as [r h1].
  simpl. eauto.
Qed.

Lemma knet_handle_stop_null :
  knet_handle_stop (core := core) None
  = mk_stopped (-1) (Some EINVAL) None [].
Proof. reflexivity. Qed.

Lemma free_after_monotone ids : monotone (free_after ids).
Proof.
  intros b b' [] Hsub; simpl; try reflexivity.
  rewrite !forallb_forall. intros Hall id Hid. apply Hsub, Hall, Hid.
Qed.

Lemma occurs_cons x c l :
  occurs x l = true -> occurs x (c :: l) = true.
Proof. unfold occurs. simpl. intros ->. apply orb_true_r. Qed.

(** The loop over the links makes link calls only and then goes on with
    what follows it: a condition that link calls meet, and that what follows
    meets however many calls came before, is met by the whole. *)
Lemma stop_links_ordered ok :
  monotone ok ->
  (forall b c, is_link_call c = true -> ok b c = true) ->
  forall link_ids h host_id j k before,
    (forall h' before',
        (forall x, occurs x before = true -> occurs x before' = true) ->
        ordered ok before' (stop_calls (k h')) = true) ->
    ordered ok before (stop_calls (stop_links h host_id link_ids j k)) = true.
Proof.
  intros Hmono Hlink.
  induction link_ids as [| l rest IH]; intros h host_id j k before Hk.
  - simpl. apply Hk. auto.
  - cbn [stop_links].
    destruct (knet_link_get_enable h host_id l) as [r en].
    cbn [called stop_calls ordered]. rewrite Hlink by reflexivity.
    destruct (negb (r =? 0)); [reflexivity |].
    destruct (negb (en =? 0)).
    + destruct (knet_link_set_enable h host_id (to_uint8 j) 0) as [r1 h1].
      cbn [called stop_calls ordered andb]. rewrite Hlink by reflexivity.
      destruct (negb (r1 =? 0)); [reflexivity |].
      destruct (knet_link_clear_config h1 host_id (to_uint8 j)) as [r2 h2].
      cbn [called stop_calls ordered andb]. rewrite Hlink by reflexivity.
      apply IH. intros h' before' Hsub. apply Hk.
      intros x Hx. apply Hsub. now do 3 apply occurs_cons.
    + destruct (knet_link_clear_config h host_id (to_uint8 j)) as [r2 h2].
      cbn [called stop_calls ordered andb]. rewrite Hlink by reflexivity.
      apply IH. intros h' before' Hsub. apply Hk.
      intros x Hx. apply Hsub. now do 2 apply occurs_cons.
Qed.

Lemma stop_hosts_frees_last done :
  forall left h before,
    (forall id, In id done -> occurs (Host_remove id) before = true) ->
    ordered (free_after (done ++ left)) before (stop_calls (stop_hosts h left))
    = true.
Proof.
  intros left. revert done.
  induction left as [| id rest IH]; intros done h before Hdone.
  - cbn [stop_hosts]. destruct (knet_handle_free h) as [r h1].
    cbn [called stop_calls ordered free_after]. rewrite app_nil_r.
    assert (Hall : forallb (fun id => occurs (Host_remove id) before) done
                   = true)
      by (apply forallb_forall; exact Hdone).
    rewrite Hall. now destruct (negb (r =? 0)).
  - cbn [stop_hosts].
    destruct (knet_link_get_link_list h id) as [r link_ids].
    cbn [called stop_calls ordered free_after andb].
    destruct (negb (r =? 0)); [reflexivity |].
    apply stop_links_ordered.
    + apply free_after_monotone.
    + intros b []; simpl; intros; reflexivity || discriminate.
    + intros h' before' Hsub.
      destruct (knet_host_remove h' id) as [r1 h2].
      cbn [called stop_calls ordered free_after andb].
      destruct (r1 <? 0); [reflexivity |].
      replace (done ++ id :: rest)%list with ((done ++ [id]) ++ rest)%list
        by (now rewrite <- app_assoc).
      apply IH. intros x Hx. apply in_app_or in Hx.
      destruct Hx as [Hx | [<- | []]].
      * apply occurs_cons, Hsub, occurs_cons, Hdone, Hx.
      * unfold occurs. simpl. now rewrite Z.eqb_refl.
Qed.

(** X10.  Whatever the library answers, [knet_handle_free] is called only
    after [knet_host_remove] has been called for every host that
    [knet_host_get_host_list] stored. *)
Lemma knet_handle_stop_frees_last h :
  ordered
    (free_after (snd (knet_host_get_host_list (snd (knet_handle_setfwd h 0)))))
    [] (stop_calls (knet_handle_stop (Some h))) = true.
Proof.
  unfold knet_handle_stop. destruct (knet_handle_setfwd h 0) as [r h1].
  cbn [snd called stop_calls ordered free_after andb].
  destruct (r <? 0); [reflexivity |].
  destruct (knet_host_get_host_list h1) as [r1 host_ids].
  cbn [snd called stop_calls ordered free_after andb].
  destruct (r1 <? 0); [reflexivity |].
  apply (stop_hosts_frees_last [] host_ids). intros id [].
Qed.

Lemma knet_handle_stop_fwd_off_first h :
  fwd_off_first (stop_calls (knet_handle_stop (Some h))) = true.
Proof.
  destruct (knet_handle_stop_starts_with_setfwd h) as [rest ->]. reflexivity.
Qed.

End Stop_any_library.

(** With link ids that are their own positions the teardown of the two
    enabled links of host 1 runs in order and to its end. *)
Lemma knet_handle_stop_two_links :
  stop_calls (knet_handle_stop (A := spec_api) (Some two_links_up))
  = [Setfwd 0; Get_host_list; Get_link_list 1;
     Get_enable 1 0; Set_enable 1 0 0; Clear_config 1 0;
     Get_enable 1 1; Set_enable 1 1 0; Clear_config 1 1;
     Host_remove 1; Handle_free]
  /\ teardown_in_order two_links_up
       (stop_calls (knet_handle_stop (A := spec_api) (Some two_links_up)))
     = true
  /\ stop_ret (knet_handle_stop (A := spec_api) (Some two_links_up)) = 0.
Proof. repeat split; reflexivity. Qed.

(** C7 on a host whose only link has id 1: the enable state is asked of
    link 1, the config cleared is that of link 0, and the removal of the
    host is called with link 1 still configured. *)
Theorem knet_handle_stop_clears_wrong_link :
  stop_calls (knet_handle_stop (A := spec_api) (Some only_link_1))
  = [Setfwd 0; Get_host_list; Get_link_list 1;
     Get_enable 1 1; Clear_config 1 0; Host_remove 1]
  /\ cleared_before_remove only_link_1 []
       (stop_calls (knet_handle_stop (A := spec_api) (Some only_link_1)))
     = false
  /\ teardown_in_order only_link_1
       (stop_calls (knet_handle_stop (A := spec_api) (Some only_link_1)))
     = false
  /\ stop_ret (knet_handle_stop (A := spec_api) (Some only_link_1)) = -1.
Proof. repeat split; reflexivity. Qed.

(** On a host with links 1, 2 and 3 of which link 2 is enabled, the config
    of link 2 is asked to be cleared with no call that disables link 2
    before it: the enable state read in that round is that of link 3. *)
Lemma knet_handle_stop_clears_enabled_link :
  stop_calls (knet_handle_stop (A := spec_api) (Some links_1_2_3))
  = [Setfwd 0; Get_host_list; Get_link_list 1;
     Get_enable 1 1; Clear_config 1 0;
     Get_enable 1 2; Set_enable 1 1 0; Clear_config 1 1;
     Get_enable 1 3; Clear_config 1 2;
     Host_remove 1]
  /\ disabled_before_clear links_1_2_3 []
       (stop_calls (knet_handle_stop (A := spec_api) (Some links_1_2_3)))
     = false.
Proof. split; reflexivity. Qed.

(** *** The teardown of a handle whose link ids are positions *)

Lemma called_calls_then {core : Type} c (r : stopped core) :
  called c r = calls_then [c] r.
Proof. reflexivity. Qed.

Lemma calls_then_app {core : Type} a b (r : stopped core) :
  calls_then (a ++ b) r = calls_then a (calls_then b r).
Proof. unfold calls_then. simpl. now rewrite app_assoc. Qed.

Lemma calls_then_cons {core : Type} c a (r : stopped core) :
  called c (calls_then a r) = calls_then (c :: a) r.
Proof. reflexivity. Qed.

Lemma positional_above ls j :
  positional ls j -> Forall (fun l => j <= link_id l) ls.
Proof.
  revert j. induction ls as [| l ls IH]; intros j; simpl.
  - constructor.
  - intros [Hl Hrest]. constructor; [lia |].
    eapply Forall_impl; [| apply (IH _ Hrest)]. simpl. intros; lia.
Qed.

Lemma replace_link_absent ls j l0 :
  Forall (fun l => j + 1 <= link_id l) ls ->
  map (fun l => if link_id l =? j then l0 else l) ls = ls.
Proof.
  induction 1 as [| l ls Hl _ IH]; simpl; [reflexivity |].
  destruct (Z.eqb_spec (link_id l) j); [lia | now rewrite IH].
Qed.

Lemma drop_link_absent ls j :
  Forall (fun l => j + 1 <= link_id l) ls ->
  filter (fun l => negb (link_id l =? j)) ls = ls.
Proof.
  induction 1 as [| l ls Hl _ IH]; simpl; [reflexivity |].
  destruct (Z.eqb_spec (link_id l) j); [lia | simpl; now rewrite IH].
Qed.

Lemma replace_host_absent hs id x0 :
  Forall (fun y => host_id y <> id) hs ->
  map (fun y => if host_id y =? id then x0 else y) hs = hs.
Proof.
  induction 1 as [| y hs Hy _ IH]; simpl; [reflexivity |].
  destruct (Z.eqb_spec (host_id y) id); [contradiction | now rewrite IH].
Qed.

Lemma drop_host_absent hs id :
  Forall (fun y => host_id y <> id) hs ->
  filter (fun y => negb (host_id y =? id)) hs = hs.
Proof.
  induction 1 as [| y hs Hy _ IH]; simpl; [reflexivity |].
  destruct (Z.eqb_spec (host_id y) id); [contradiction | simpl; now rewrite IH].
Qed.

(** The loop over the links of the host at the head of the host table makes
    the calls of [link_teardown] link by link and leaves the host without
    links. *)
Lemma stop_links_positional ls :
  forall j id rem f fr k,
    positional ls j ->
    0 <= j ->
    j + Z.of_nat (List.length ls) <= 256 ->
    Forall (fun y => host_id y <> id) rem ->
    stop_links (A := spec_api) (mk_core f (mk_host id ls :: rem) fr) id
               (map link_id ls) j k
    = calls_then (flat_map (link_teardown id) ls)
                 (k (mk_core f (mk_host id [] :: rem) fr)).
Proof.
  induction ls as [| l ls IH]; intros j id rem f fr k Hpos Hj Hlen Hrem.
  - simpl. destruct (k _); reflexivity.
  - destruct Hpos as [Hl Hrest]. destruct l as [lid en]. simpl in Hl. subst lid.
    assert (Habove : Forall (fun l => j + 1 <= link_id l) ls)
      by (apply positional_above, Hrest).
    assert (Hu8 : to_uint8 j = j).
    { unfold to_uint8. apply Z.mod_small. simpl List.length in Hlen. lia. }
    cbn [map stop_links link_id].
    cbn [knet_link_get_enable knet_link_set_enable knet_link_clear_config
         spec_api].
    rewrite Hu8.
    unfold spec_get_enable, spec_set_enable, spec_clear_config, find_host,
      find_link, update_host.
    destruct en;
      repeat (progress
                (rewrite ?Z.eqb_refl;
                 change (1 =? 0) with false;
                 cbn [hosts find host_id links link_id enabled fwd freed
                      map filter negb]));
      rewrite ?(replace_link_absent ls j _ Habove);
      rewrite ?(drop_link_absent ls j Habove);
      rewrite ?(replace_host_absent rem id _ Hrem);
      rewrite (IH (j + 1) id rem f fr k Hrest ltac:(lia)
                  ltac:(simpl List.length in Hlen; lia) Hrem);
      reflexivity.
Qed.

Lemma stop_hosts_positional hs :
  forall f fr,
    positional_handle (mk_core f hs fr) ->
    stop_hosts (A := spec_api) (mk_core f hs fr) (map host_id hs)
    = calls_then (flat_map host_teardown hs ++ [Handle_free])
                 (stop_return 0 (mk_core f [] true)).
Proof.
  induction hs as [| x hs IH]; intros f fr [Hnodup Hall].
  - reflexivity.
  - destruct x as [id ls]. simpl in Hnodup, Hall.
    apply NoDup_cons_iff in Hnodup. destruct Hnodup as [Hfresh Hnodup].
    apply Forall_cons_iff in Hall. destruct Hall as [[Hpos Hlen] Hall].
    simpl in Hpos, Hlen.
    assert (Hrem : Forall (fun y => host_id y <> id) hs).
    { apply Forall_forall. intros y Hy Heq. apply Hfresh.
      rewrite <- Heq. now apply in_map. }
    cbn [map stop_hosts host_id].
    cbn [knet_link_get_link_list knet_host_remove spec_api].
    unfold spec_get_link_list, find_host.
    cbn [hosts find host_id links]. rewrite Z.eqb_refl. cbn [links Z.eqb negb].
    rewrite (stop_links_positional ls 0 id hs f fr _ Hpos ltac:(lia)
               ltac:(lia) Hrem).
    cbn [knet_host_remove spec_api].
    unfold spec_host_remove, find_host.
    cbn [hosts find host_id links fwd freed]. rewrite Z.eqb_refl.
    cbn [links filter host_id]. rewrite Z.eqb_refl. cbn [negb Z.ltb Z.compare].
    rewrite (drop_host_absent hs id Hrem).
    rewrite IH by (split; assumption).
    unfold host_teardown. cbn [flat_map host_id links].
    rewrite !called_calls_then, <- !calls_then_app.
    f_equal. simpl. rewrite <- !app_assoc. reflexivity.
Qed.

(** With host ids that are unique and link ids that are positions, the
    teardown makes the calls of [full_teardown] and ends with the handle
    freed. *)
Lemma knet_handle_stop_positional h :
  positional_handle h ->
  knet_handle_stop (A := spec_api) (Some h)
  = mk_stopped 0 None (Some (mk_core false [] true)) (full_teardown h).
Proof.
  destruct h as [f hs fr]. intros Hwf. unfold knet_handle_stop.
  cbn [knet_handle_setfwd knet_host_get_host_list spec_api].
  unfold spec_setfwd, spec_get_host_list.
  cbn [hosts freed Z.eqb negb Z.ltb Z.compare].
  rewrite stop_hosts_positional by exact Hwf.
  unfold called, calls_then, stop_return, full_teardown.
  cbn [stop_ret stop_errno stop_core stop_calls hosts].
  now rewrite app_nil_r.
Qed.

(** *** The calls of [full_teardown] are in order *)

Lemma api_call_eqb_refl c : api_call_eqb c c = true.
Proof. destruct c; simpl; rewrite ?Z.eqb_refl; reflexivity. Qed.

Lemma occurs_In c l : In c l -> occurs c l = true.
Proof.
  intros Hin. unfold occurs. apply existsb_exists.
  exists c. split; [assumption | apply api_call_eqb_refl].
Qed.

Lemma ordered_app ok a :
  forall before b,
    ordered ok before (a ++ b)
    = ordered ok before a && ordered ok (rev a ++ before) b.
Proof.
  induction a as [| c a IH]; intros before b; simpl.
  - reflexivity.
  - rewrite IH, <- app_assoc. simpl. now rewrite andb_assoc.
Qed.

Lemma ordered_monotone ok calls :
  monotone ok ->
  forall b b',
    (forall x, occurs x b = true -> occurs x b' = true) ->
    ordered ok b calls = true -> ordered ok b' calls = true.
Proof.
  intros Hmono. induction calls as [| c calls IH]; intros b b' Hsub; simpl.
  - reflexivity.
  - rewrite !andb_true_iff. intros [Hc Hrest]. split.
    + eapply Hmono; eassumption.
    + apply (IH (c :: b)); [| assumption].
      intros x. unfold occurs. simpl. rewrite !orb_true_iff.
      intros [Hx | Hx]; [now left | right; now apply Hsub].
Qed.

Lemma ordered_flat_map {X : Type} ok (f : X -> list api_call) xs :
  monotone ok ->
  (forall x, In x xs -> ordered ok [] (f x) = true) ->
  forall before, ordered ok before (flat_map f xs) = true.
Proof.
  intros Hmono. induction xs as [| x xs IH]; intros Hseg before; simpl.
  - reflexivity.
  - rewrite ordered_app, andb_true_iff. split.
    + apply (ordered_monotone ok _ Hmono []); [discriminate |].
      apply Hseg. now left.
    + apply IH. intros y Hy. apply Hseg. now right.
Qed.

Lemma ordered_neutral ok calls :
  (forall c, In c calls -> forall b, ok b c = true) ->
  forall before, ordered ok before calls = true.
Proof.
  induction calls as [| c calls IH]; intros Hall before; simpl.
  - reflexivity.
  - rewrite Hall by now left. apply IH. intros x Hx. apply Hall. now right.
Qed.

Lemma clear_ok_monotone h : monotone (clear_ok h).
Proof.
  intros b b' [] Hsub; simpl; try reflexivity.
  destruct (was_enabled h host_id0 link_id0); simpl; [apply Hsub | reflexivity].
Qed.

Lemma remove_ok_monotone h : monotone (remove_ok h).
Proof.
  intros b b' [] Hsub; simpl; try reflexivity.
  rewrite !forallb_forall. intros Hall lid Hlid. apply Hsub, Hall, Hlid.
Qed.

Lemma find_host_In hs x :
  NoDup (map host_id hs) -> In x hs ->
  find (fun y => host_id y =? host_id x) hs = Some x.
Proof.
  induction hs as [| y hs IH]; simpl; intros Hnodup Hin; [contradiction |].
  apply NoDup_cons_iff in Hnodup. destruct Hnodup as [Hfresh Hnodup].
  destruct Hin as [-> | Hin].
  - now rewrite Z.eqb_refl.
  - destruct (Z.eqb_spec (host_id y) (host_id x)) as [Heq | _].
    + exfalso. apply Hfresh. rewrite Heq. now apply in_map.
    + now apply IH.
Qed.

Lemma find_link_In ls l j :
  positional ls j -> In l ls ->
  find (fun y => link_id y =? link_id l) ls = Some l.
Proof.
  revert j. induction ls as [| y ls IH]; simpl; intros j Hpos Hin;
    [contradiction |].
  destruct Hpos as [Hy Hrest]. destruct Hin as [-> | Hin].
  - now rewrite Z.eqb_refl.
  - pose proof (positional_above _ _ Hrest) as Habove.
    rewrite Forall_forall in Habove. specialize (Habove l Hin).
    destruct (Z.eqb_spec (link_id y) (link_id l)); [lia |].
    now apply (IH (j + 1)).
Qed.

Section In_order.

Variable h : handle.
Hypothesis Hwf : positional_handle h.

Lemma host_positional x : In x (hosts h) -> positional (links x) 0.
Proof.
  intros Hx. destruct Hwf as [_ Hall].
  rewrite Forall_forall in Hall. now destruct (Hall x Hx).
Qed.

Lemma was_enabled_here x l :
  In x (hosts h) -> In l (links x) ->
  was_enabled h (host_id x) (link_id l) = enabled l.
Proof.
  intros Hx Hl. unfold was_enabled, find_host, find_link.
  rewrite (find_host_In _ _ (proj1 Hwf) Hx).
  now rewrite (find_link_In _ _ 0 (host_positional x Hx) Hl).
Qed.

Lemma links_of_here x :
  In x (hosts h) -> links_of h (host_id x) = map link_id (links x).
Proof.
  intros Hx. unfold links_of, find_host.
  now rewrite (find_host_In _ _ (proj1 Hwf) Hx).
Qed.

Lemma full_teardown_disables_before_clear :
  disabled_before_clear h [] (full_teardown h) = true.
Proof.
  unfold disabled_before_clear, full_teardown.
  cbn [ordered clear_ok andb].
  rewrite ordered_app, andb_true_iff. split; [| reflexivity].
  apply ordered_flat_map; [apply clear_ok_monotone |].
  intros x Hx. unfold host_teardown. cbn [ordered clear_ok andb].
  rewrite ordered_app, andb_true_iff. split; [| reflexivity].
  apply ordered_flat_map; [apply clear_ok_monotone |].
  intros l Hl. unfold link_teardown.
  cbn [ordered clear_ok andb].
  destruct (enabled l) eqn:Hen; cbn [app ordered clear_ok andb];
    rewrite (was_enabled_here x l Hx Hl), Hen; cbn [implb].
  - unfold occurs. cbn [existsb]. rewrite api_call_eqb_refl. reflexivity.
  - reflexivity.
Qed.

Lemma link_teardown_clears id l :
  In (Clear_config id (link_id l)) (link_teardown id l).
Proof.
  unfold link_teardown. right. apply in_or_app. right. now left.
Qed.

Lemma full_teardown_clears_before_remove :
  cleared_before_remove h [] (full_teardown h) = true.
Proof.
  unfold cleared_before_remove, full_teardown.
  cbn [ordered remove_ok andb].
  rewrite ordered_app, andb_true_iff. split; [| reflexivity].
  apply ordered_flat_map; [apply remove_ok_monotone |].
  intros x Hx. unfold host_teardown. cbn [ordered remove_ok andb].
  rewrite ordered_app, andb_true_iff. split.
  - apply ordered_neutral. intros c Hc b.
    apply in_flat_map in Hc. destruct Hc as (l & _ & Hc).
    unfold link_teardown in Hc. destruct Hc as [<- | Hc]; [reflexivity |].
    apply in_app_or in Hc. destruct Hc as [Hc | [<- | []]]; [| reflexivity].
    destruct (enabled l); [destruct Hc as [<- | []]; reflexivity | destruct Hc].
  - cbn [ordered remove_ok]. rewrite andb_true_r.
    rewrite (links_of_here x Hx). apply forallb_forall.
    intros lid Hlid. apply in_map_iff in Hlid. destruct Hlid as (l & <- & Hl).
    apply occurs_In. apply in_or_app. left. apply in_rev. rewrite rev_involutive.
    apply in_flat_map. exists l. split; [assumption | apply link_teardown_clears].
Qed.

Lemma full_teardown_removes_before_free :
  removed_before_free h [] (full_teardown h) = true.
Proof.
  unfold removed_before_free, free_ok, full_teardown.
  cbn [ordered free_after andb].
  rewrite ordered_app, andb_true_iff. split.
  - apply ordered_neutral. intros c Hc b.
    apply in_flat_map in Hc. destruct Hc as (x & _ & Hc).
    unfold host_teardown in Hc. destruct Hc as [<- | Hc]; [reflexivity |].
    apply in_app_or in Hc. destruct Hc as [Hc | [<- | []]]; [| reflexivity].
    apply in_flat_map in Hc. destruct Hc as (l & _ & Hc).
    unfold link_teardown in Hc. destruct Hc as [<- | Hc]; [reflexivity |].
    apply in_app_or in Hc. destruct Hc as [Hc | [<- | []]]; [| reflexivity].
    destruct (enabled l); [destruct Hc as [<- | []]; reflexivity | destruct Hc].
  - cbn [ordered free_after]. rewrite andb_true_r. apply forallb_forall.
    intros id Hid. apply in_map_iff in Hid. destruct Hid as (x & <- & Hx).
    apply occurs_In. apply in_or_app. left. apply in_rev. rewrite rev_involutive.
    apply in_flat_map. exists x. split; [assumption |].
    unfold host_teardown. right. apply in_or_app. right. now left.
Qed.

(** X11.  On a handle whose host ids are unique and whose link ids are the
    positions of the links, [knet_handle_stop] runs to its end, returns 0
    and makes its calls in the order of the contract. *)
Lemma knet_handle_stop_in_order :
  stop_ret (knet_handle_stop (A := spec_api) (Some h)) = 0
  /\ stop_core (knet_handle_stop (A := spec_api) (Some h))
     = Some (mk_core false [] true)
  /\ teardown_in_order h
       (stop_calls (knet_handle_stop (A := spec_api) (Some h))) = true.
Proof.
  rewrite (knet_handle_stop_positional h Hwf). cbn [stop_ret stop_core stop_calls].
  split; [reflexivity |]. split; [reflexivity |].
  unfold teardown_in_order.
  rewrite full_teardown_disables_before_clear,
    full_teardown_clears_before_remove, full_teardown_removes_before_free.
  reflexivity.
Qed.

End In_order.

(** ** [dyn_knet_link_set_config] and [FAIL_ON_ERR] *)

Section Dyn_facts.

Context {E : link_env}.

Variables (host_id link_id transport flags family dynamic : Z).
Variable addr : string.
Variable lo1 : option sockaddr.

Local Abbreviation loop :=
  (dyn_loop host_id link_id transport flags family dynamic addr lo1).
Local Abbreviation converted := (converted family addr).
Local Abbreviation attempt :=
  (attempt host_id link_id transport flags family dynamic addr lo1).
Local Abbreviation in_use :=
  (in_use host_id link_id transport flags family dynamic addr lo1).
Local Abbreviation refused :=
  (refused host_id link_id transport flags family dynamic addr lo1).
Local Abbreviation sctp_unsupported :=
  (sctp_unsupported host_id link_id transport flags family dynamic addr lo1).

(** One round of the loop. *)
Lemma dyn_loop_round fuel port err savederrno lo0 :
  port < 65536 ->
  loop (S fuel) port err savederrno lo0 =
  if fst (converted port) <? 0 then
    Some (mk_configured (fst (converted port)) savederrno
                        (Some (snd (converted port))))
  else if (fst (attempt port) <? 0)
          && negb (snd (attempt port) =? EADDRINUSE) then
    if sctp_unsupported port then
      Some (mk_configured (-2) (snd (attempt port))
                          (Some (snd (converted port))))
    else
      Some (mk_configured (fst (attempt port)) (snd (attempt port))
                          (Some (snd (converted port))))
  else if fst (attempt port) =? 0 then
    Some (mk_configured (fst (attempt port)) (snd (attempt port))
                        (Some (snd (converted port))))
  else
    loop fuel (port + 1) (fst (attempt port)) (snd (attempt port))
         (Some (snd (converted port))).
Proof.
  intros Hport. apply Z.ltb_lt in Hport. simpl. rewrite Hport.
  unfold sctp_unsupported, attempt, converted.
  destruct (family =? AF_INET6);
    match goal with
    | |- context [knet_strtoaddr ?a port] =>
        destruct (knet_strtoaddr a port) as [e sa]
    end; simpl;
    (destruct (e <? 0); [reflexivity |]);
    destruct (negb (dynamic =? 0));
    match goal with
    | |- context [knet_link_set_config ?a ?b ?c ?d ?x ?f] =>
        destruct (knet_link_set_config a b c d x f) as [e2 sv2]
    end; reflexivity.
Qed.

(** The function returns: the loop ends within its 64511 ports. *)
Lemma dyn_loop_defined fuel port err savederrno lo0 :
  65536 - port <= Z.of_nat fuel ->
  exists c, loop fuel port err savederrno lo0 = Some c.
Proof.
  revert port err savederrno lo0.
  induction fuel as [| fuel IH]; intros port err savederrno lo0 Hfuel.
  - simpl. destruct (Z.ltb_spec port 65536); [lia | eauto].
  - destruct (Z.ltb_spec port 65536) as [Hlt | Hge].
    + rewrite (dyn_loop_round _ _ _ _ _ Hlt).
      destruct (_ <? 0); [eauto |].
      destruct (_ && _); [destruct (sctp_unsupported port); eauto |].
      destruct (_ =? 0); [eauto |].
      apply IH. lia.
    + simpl. apply Z.ltb_ge in Hge. rewrite Hge. eauto.
Qed.

Lemma dyn_knet_link_set_config_defined :
  exists c,
    dyn_knet_link_set_config host_id link_id transport flags family dynamic
                             addr lo1 = Some c.
Proof. apply dyn_loop_defined. lia. Qed.

(** Rounds that find the address in use lead to the next port. *)
Lemma dyn_loop_in_use fuel port err savederrno lo0 :
  port < 65536 ->
  in_use port ->
  loop (S fuel) port err savederrno lo0 =
  loop fuel (port + 1) (fst (attempt port)) (snd (attempt port))
       (Some (snd (converted port))).
Proof.
  intros Hport (Hconv & Herr & Hbusy).
  rewrite (dyn_loop_round _ _ _ _ _ Hport).
  destruct (Z.ltb_spec (fst (converted port)) 0); [lia |].
  rewrite Hbusy. rewrite Z.eqb_refl. rewrite andb_false_r.
  destruct (Z.eqb_spec (fst (attempt port)) 0); [lia | reflexivity].
Qed.

Lemma dyn_loop_skips_in_use n :
  forall fuel port err savederrno lo0,
    port + Z.of_nat (S n) <= 65536 ->
    (forall q, port <= q < port + Z.of_nat (S n) -> in_use q) ->
    loop (S n + fuel) port err savederrno lo0 =
    loop fuel (port + Z.of_nat (S n))
         (fst (attempt (port + Z.of_nat n)))
         (snd (attempt (port + Z.of_nat n)))
         (Some (snd (converted (port + Z.of_nat n)))).
Proof.
  induction n as [| n IH]; intros fuel port err savederrno lo0 Hend Hbusy.
  - change (1 + fuel)%nat with (S fuel).
    rewrite dyn_loop_in_use; [| lia | apply Hbusy; lia].
    change (Z.of_nat 0) with 0. change (Z.of_nat 1) with 1.
    now rewrite Z.add_0_r.
  - change (S (S n) + fuel)%nat with (S (S n + fuel)).
    rewrite dyn_loop_in_use; [| lia | apply Hbusy; lia].
    rewrite IH; [| lia | intros q Hq; apply Hbusy; lia].
    replace (port + 1 + Z.of_nat (S n)) with (port + Z.of_nat (S (S n)))
      by lia.
    replace (port + 1 + Z.of_nat n) with (port + Z.of_nat (S n)) by lia.
    reflexivity.
Qed.

(** The round that ends the function, whatever the rounds before it left
    behind. *)
Lemma dyn_loop_refused fuel port err savederrno lo0 :
  port < 65536 ->
  refused port ->
  loop (S fuel) port err savederrno lo0 =
  Some (mk_configured
          (if sctp_unsupported port then -2 else fst (attempt port))
          (snd (attempt port))
          (Some (snd (converted port)))).
Proof.
  intros Hport (Hconv & Herr & _ & Hother).
  rewrite (dyn_loop_round _ _ _ _ _ Hport).
  destruct (Z.ltb_spec (fst (converted port)) 0); [lia |].
  destruct (Z.ltb_spec (fst (attempt port)) 0); [| lia].
  destruct (Z.eqb_spec (snd (attempt port)) EADDRINUSE); [contradiction |].
  simpl. destruct (sctp_unsupported port); reflexivity.
Qed.

Lemma dyn_reaches_refused port :
  1025 <= port < 65536 ->
  (forall q, 1025 <= q < port -> in_use q) ->
  refused port ->
  dyn_knet_link_set_config host_id link_id transport flags family dynamic
                           addr lo1
  = Some (mk_configured
            (if sctp_unsupported port then -2 else fst (attempt port))
            (snd (attempt port))
            (Some (snd (converted port)))).
Proof.
  intros Hport Hbusy Href. unfold dyn_knet_link_set_config.
  destruct (Z.eq_dec port 1025) as [-> | Hne].
  - replace (Z.to_nat 65536) with (S (Z.to_nat 65535)) by lia.
    now apply dyn_loop_refused.
  - replace (Z.to_nat 65536)
      with (S (Z.to_nat (port - 1026)) + S (Z.to_nat (65535 - (port - 1025))))%nat
      by lia.
    rewrite dyn_loop_skips_in_use.
    + replace (1025 + Z.of_nat (S (Z.to_nat (port - 1026)))) with port by lia.
      now apply dyn_loop_refused.
    + lia.
    + intros q Hq. apply Hbusy. lia.
Qed.

(** C8.  Let the rounds for the ports before [port] find their address in
    use, and let the round for [port] meet another configuration error.
    When the error is EPROTONOSUPPORT and the transport is SCTP,
    [dyn_knet_link_set_config] returns -2 and [FAIL_ON_ERR] exits with
    SKIP; with every other error it returns what the library returned and
    [FAIL_ON_ERR] exits with FAIL. *)
Theorem dyn_skip_or_fail port recv_thread_1 :
  1025 <= port < 65536 ->
  (forall q, 1025 <= q < port -> in_use q) ->
  refused port ->
  exists c,
    dyn_knet_link_set_config host_id link_id transport flags family dynamic
                             addr lo1 = Some c
    /\ cfg_errno c = snd (attempt port)
    /\ if (snd (attempt port) =? EPROTONOSUPPORT)
          && (transport =? KNET_TRANSPORT_SCTP) then
         cfg_ret c = -2 /\ dyn_exit recv_thread_1 c = Some SKIP
       else
         cfg_ret c = fst (attempt port)
         /\ dyn_exit recv_thread_1 c = Some FAIL.
Proof.
  intros Hport Hbusy Href.
  rewrite (dyn_reaches_refused port Hport Hbusy Href).
  eexists. split; [reflexivity |]. split; [reflexivity |].
  destruct Href as (_ & Hneg & Hnot2 & _).
  unfold sctp_unsupported.
  destruct (_ && _); simpl.
  - split; reflexivity.
  - split; [reflexivity |]. unfold dyn_exit, FAIL_ON_ERR. simpl.
    destruct (Z.eqb_spec (fst (attempt port)) 0); [lia |].
    destruct (Z.eqb_spec (fst (attempt port)) (-2)); [contradiction |].
    reflexivity.
Qed.

(** X20.  When every port is in use the function returns the error of the
    last attempt, with errno EADDRINUSE, and the harness fails. *)
Lemma dyn_no_more_ports recv_thread_1 :
  (forall q, 1025 <= q < 65536 -> in_use q) ->
  fst (attempt 65535) <> -2 ->
  exists c,
    dyn_knet_link_set_config host_id link_id transport flags family dynamic
                             addr lo1 = Some c
    /\ cfg_ret c = fst (attempt 65535)
    /\ cfg_errno c = EADDRINUSE
    /\ dyn_exit recv_thread_1 c = Some FAIL.
Proof.
  intros Hbusy Hnot2. unfold dyn_knet_link_set_config.
  replace (Z.to_nat 65536) with (S (Z.to_nat 64510) + Z.to_nat 1025)%nat
    by lia.
  rewrite dyn_loop_skips_in_use; [| lia | intros q Hq; apply Hbusy; lia].
  replace (1025 + Z.of_nat (S (Z.to_nat 64510))) with 65536 by lia.
  replace (1025 + Z.of_nat (Z.to_nat 64510)) with 65535 by lia.
  destruct (Hbusy 65535 ltac:(lia)) as (_ & Hneg & Herrno).
  destruct (Z.to_nat 1025); simpl;
    (eexists; split; [reflexivity |]); simpl;
    (split; [reflexivity |]); (split; [assumption |]);
    unfold dyn_exit, FAIL_ON_ERR; simpl;
    (destruct (Z.eqb_spec (fst (attempt 65535)) 0); [lia |]);
    (destruct (Z.eqb_spec (fst (attempt 65535)) (-2)); [contradiction |]);
    reflexivity.
Qed.

End Dyn_facts.

Lemma dyn_skip_or_fail_witness :
  exists c,
    @dyn_knet_link_set_config no_sctp_env 2 0 2 0 2 1 "127.0.0.1" None
    = Some c
    /\ cfg_errno c = EPROTONOSUPPORT
    /\ cfg_ret c = -2
    /\ dyn_exit 0 c = Some SKIP.
Proof.
  apply (@dyn_skip_or_fail no_sctp_env 2 0 2 0 2 1 "127.0.0.1" None 1025 0).
  - lia.
  - intros q Hq. lia.
  - unfold refused. simpl. unfold EPROTONOSUPPORT, EADDRINUSE. lia.
Defined.

(** Two ports in use and then EINVAL: the third round ends the function
    with -1 and the harness fails. *)
Lemma dyn_fail_after_two_ports :
  @dyn_knet_link_set_config refusing_env 2 0 2 0 2 1 "127.0.0.1" None
  = Some (mk_configured (-1) EINVAL (Some (mk_sockaddr "127.0.0.1" 1027)))
  /\ dyn_exit 0 (mk_configured (-1) EINVAL
                                (Some (mk_sockaddr "127.0.0.1" 1027)))
     = Some FAIL.
Proof. split; vm_compute; reflexivity. Qed.

(** ** [recv_messages] and the count of messages *)

Lemma recv_body_got_ordinary payload v :
  ordinary payload ->
  recv_body (got payload) v
  = (mk_vars (msgs_recvd v + 1) (err v) (replies v + 1), Next).
Proof.
  intros [Hquit Hzero]. unfold recv_body, got.
  cbn [len buf recv_errno quit_recv_thread write_res].
  destruct (Z.gtb_spec (Z.of_nat (String.length payload) + 1) 0); [| lia].
  destruct (String.eqb_spec "QUIT" payload) as [Heq | _]; [congruence |].
  rewrite Hzero.
  destruct (Z.ltb_spec (Z.of_nat (String.length payload) + 1) 0); [lia |].
  reflexivity.
Qed.

(** Every payload is counted as it is received, before it is looked at. *)
Lemma recv_body_counts r v :
  0 < len r ->
  quit_recv_thread r = false ->
  msgs_recvd (fst (recv_body r v)) = msgs_recvd v + 1.
Proof.
  intros Hlen Hquit. unfold recv_body. rewrite Hquit.
  destruct (Z.gtb_spec (len r) 0); [| lia].
  destruct (String.eqb "QUIT" (buf r)); [reflexivity |].
  destruct (starts_with_0 (buf r)); [reflexivity |].
  destruct (negb (write_res r =? 1)); [reflexivity |].
  destruct ((len r <? 0) && negb (recv_errno r =? EAGAIN)); reflexivity.
Qed.

Lemma recv_body_quit r v :
  0 < len r ->
  quit_recv_thread r = false ->
  buf r = "QUIT" ->
  recv_body r v = (mk_vars (msgs_recvd v + 1) (err v) (replies v), Break).
Proof.
  intros Hlen Hquit Hbuf. unfold recv_body. rewrite Hquit, Hbuf.
  destruct (Z.gtb_spec (len r) 0); [reflexivity | lia].
Qed.

Lemma check_msgs_recvd_passes n :
  check_msgs_recvd n = None
  <-> n = CORRECT_NUM_MSGS \/ n = CORRECT_NUM_MSGS - 1.
Proof.
  unfold check_msgs_recvd.
  destruct (Z.eqb_spec n CORRECT_NUM_MSGS);
    destruct (Z.eqb_spec n (CORRECT_NUM_MSGS - 1)); simpl;
    split; intros H; try reflexivity; try discriminate; try tauto.
Qed.

Lemma test_end_passes e1 e2 n :
  test_end e1 e2 n = None
  <-> e1 = 0 /\ e2 = 0 /\ (n = CORRECT_NUM_MSGS \/ n = CORRECT_NUM_MSGS - 1).
Proof.
  unfold test_end.
  destruct (Z.eqb_spec e1 0); simpl; [| split; [discriminate | tauto]].
  destruct (Z.eqb_spec e2 0); simpl; [| split; [discriminate | tauto]].
  rewrite check_msgs_recvd_passes. tauto.
Qed.

(** C9.  A thread that receives ordinary payloads and then "QUIT" counts
    every one of them and "QUIT" as well, leaves the loop at "QUIT" without
    reading on and without an error of its own; and the count of messages
    at the end of the test lets the test pass exactly when it is 10 or 9. *)
Theorem quit_handshake payloads rest v n :
  Forall ordinary payloads ->
  recv_messages (map got payloads ++ got "QUIT" :: rest) v
  = Some (mk_vars (msgs_recvd v + Z.of_nat (List.length payloads) + 1)
                  (err v)
                  (replies v + Z.of_nat (List.length payloads)))
  /\ (check_msgs_recvd n = None <-> n = 10 \/ n = 9)
  /\ (test_end (err v) (err v) n = None
      <-> err v = 0 /\ (n = 10 \/ n = 9)).
Proof.
  intros Hord. split; [| split].
  - revert v. induction Hord as [| p ps Hp _ IH]; intros v.
    + cbn [map app recv_messages List.length].
      change (len (got "QUIT") =? 0) with false. cbv iota.
      rewrite recv_body_quit by (reflexivity || (simpl; lia)).
      f_equal. f_equal; simpl; lia.
    + cbn [map app recv_messages List.length].
      assert (Hlen : (len (got p) =? 0) = false).
      { unfold got. simpl. apply Z.eqb_neq. lia. }
      rewrite Hlen. rewrite (recv_body_got_ordinary p v Hp).
      rewrite IH. f_equal. f_equal; simpl; lia.
  - apply check_msgs_recvd_passes.
  - rewrite test_end_passes. unfold CORRECT_NUM_MSGS. simpl. tauto.
Qed.

Lemma quit_handshake_witness :
  recv_messages
    (map got ["Testing from 127.0.0.1"; "Testing from 127.0.0.2";
              "Testing from 127.0.0.3"; "Testing from 127.0.0.1 again"]
     ++ got "QUIT" :: [])
    (mk_vars 5 0 4)
  = Some (mk_vars 10 0 8)
  /\ (check_msgs_recvd 10 = None <-> 10 = 10 \/ 10 = 9)
  /\ (test_end 0 0 10 = None <-> 0 = 0 /\ (10 = 10 \/ 10 = 9)).
Proof.
  apply (quit_handshake
           ["Testing from 127.0.0.1"; "Testing from 127.0.0.2";
            "Testing from 127.0.0.3"; "Testing from 127.0.0.1 again"]
           [] (mk_vars 5 0 4) 10).
  repeat constructor; discriminate.
Defined.

(** The two receive threads of the test, one after the other on the shared
    counter: four messages and "QUIT" each make 10; with the first message
    lost the count is 9; the test passes on both and fails on 8. *)
Lemma scenario_all_arrive :
  recv_messages
    (map got ["Testing from 127.0.0.1"; "Testing from 127.0.0.2";
              "Testing from 127.0.0.3"; "Testing from 127.0.0.1 again";
              "QUIT"])
    (mk_vars 0 0 0) = Some (mk_vars 5 0 4)
  /\ recv_messages
       (map got ["Testing from 'receiving' handle to 127.0.0.1";
                 "Testing from 'receiving' handle to 127.0.0.2";
                 "Testing from 'receiving' handle to 127.0.0.3";
                 "Testing from 'receiving' handle to 127.0.0.1 again";
                 "QUIT"])
       (mk_vars 5 0 4) = Some (mk_vars 10 0 8)
  /\ test_end 0 0 10 = None.
Proof. split; [| split]; vm_compute; reflexivity. Qed.

Lemma scenario_first_lost :
  recv_messages
    (map got ["Testing from 127.0.0.2";
              "Testing from 127.0.0.3"; "Testing from 127.0.0.1 again";
              "QUIT"])
    (mk_vars 0 0 0) = Some (mk_vars 4 0 3)
  /\ recv_messages
       (map got ["Testing from 'receiving' handle to 127.0.0.1";
                 "Testing from 'receiving' handle to 127.0.0.2";
                 "Testing from 'receiving' handle to 127.0.0.3";
                 "Testing from 'receiving' handle to 127.0.0.1 again";
                 "QUIT"])
       (mk_vars 4 0 3) = Some (mk_vars 9 0 7)
  /\ test_end 0 0 9 = None.
Proof. split; [| split]; vm_compute; reflexivity. Qed.

Lemma scenario_two_lost : test_end 0 0 8 = Some FAIL.
Proof. reflexivity. Qed.

(** * Further properties *)

Open Scope list_scope.

(** ** compress.c *)

Section Compress_more.

Context {M : compress_modules} {L : knet_limits}.

(** X1.  [get_model] and [get_model_by_idx] are inverse to each other on
    what is registered: a name is looked up to -1 exactly when no row
    carries it, and otherwise to an index whose row carries that name. *)
Theorem get_model_lookup name :
  (get_model name = -1 <-> unknown_model name)
  /\ (get_model name <> -1 ->
      0 <= get_model name <= 6
      /\ get_model_by_idx (get_model name) = Some name).
Proof.
  pose proof (get_model_range name) as Hrange. split; [split |].
  - intros Hnone i Hi.
    assert (Hcase : i < 0 \/ 8 <= i \/ i = 7 \/ 0 <= i <= 6) by lia.
    destruct Hcase as [Hout | [Hout | [-> | Hin]]].
    + unfold get_model_by_idx in Hi.
      now rewrite (cmds_at_outside i (or_introl Hout)) in Hi.
    + unfold get_model_by_idx in Hi.
      now rewrite (cmds_at_outside i (or_intror Hout)) in Hi.
    + discriminate.
    + rewrite get_model_chain in Hnone.
      split_index i; injection Hi as <-; discriminate.
  - apply get_model_unknown.
  - intros Hfound. split; [lia |].
    apply get_model_found; [reflexivity | lia].
Qed.

(** X4.  Selecting "none": [compress_init] returns 0 and stores index 0 and
    the level of the cfg as it is, without a level check and without
    looking at the threshold of the cfg; the threshold of the handle stays
    what it was. *)
Theorem compress_init_none s cfg :
  table_fits ->
  Cfg.compress_model cfg = "none" ->
  exists r,
    compress_init s (Some cfg) = Some r
    /\ ret r = 0
    /\ hook_calls (calls r) = []
    /\ compress_model (knet_h (st r)) = 0
    /\ compress_level (knet_h (st r)) = Cfg.compress_level cfg
    /\ compress_threshold (knet_h (st r)) = compress_threshold (knet_h s)
    /\ errno (st r) = errno s.
Proof.
  intros Hfit Hname. past_bound_check Hfit. rewrite Hname.
  change (get_model "none") with 0. cbn [Z.ltb Z.gtb Z.compare].
  eexists. split; [reflexivity |]. repeat split; reflexivity.
Qed.

Lemma init_from_returns rows idx s :
  ret (init_from rows idx s) = 0
  \/ (ret (init_from rows idx s) = -1
      /\ errno (st (init_from rows idx s)) = EINVAL).
Proof.
  revert idx s. induction rows as [| r rows IH]; intros idx s; simpl.
  - now left.
  - destruct (Cmd.model_name r); [| now left].
    destruct (Cmd.init r) as [f |]; [| apply IH].
    destruct (f s idx) as [v s1]. destruct (v <? 0); simpl.
    + right. split; reflexivity.
    + apply IH.
Qed.

(** X5.  Every way out of [compress_init] returns 0, or returns -1 with
    errno EINVAL, whatever errno a hook that failed has left; and a table
    that does not fit KNET_MAX_COMPRESS_METHODS fails every call before any
    hook is called. *)
Theorem compress_init_returns s cfg r :
  compress_init s cfg = Some r ->
  (ret r = 0 \/ (ret r = -1 /\ errno (st r) = EINVAL))
  /\ (~ table_fits -> ret r = -1 /\ hook_calls (calls r) = []).
Proof.
  unfold compress_init, table_fits. cbv zeta.
  change (compress_max_model (knet_h (set_compress_max_model s get_max_model)))
    with get_max_model.
  destruct (Z.gtb_spec get_max_model KNET_MAX_COMPRESS_METHODS) as [Hbig | Hfit].
  { intros [= <-]. split; [right; split; reflexivity |].
    intros _. split; reflexivity. }
  intros Hr. split; [| intros Hno; lia].
  destruct cfg as [cfg |].
  - destruct (_ <? 0).
    { injection Hr as <-. right. split; reflexivity. }
    destruct (_ >? 0).
    + destruct (val_level _ _ _) as [[v s1] |]; [| discriminate].
      injection Hr as <-. destruct (v <? 0); [right; split; reflexivity |].
      destruct (_ >? KNET_MAX_PACKET_SIZE); [right; split; reflexivity |].
      destruct (_ =? 0); left; reflexivity.
    + injection Hr as <-. left. reflexivity.
  - injection Hr as <-.
    exact (init_from_returns compress_modules_cmds 0
             (set_compress_max_model s get_max_model)).
Qed.

(** X6.  A call with a cfg never runs an [init] hook: the only call through
    the table is the level check of the row that the name resolves to, and
    only for a row above 0. *)
Theorem compress_init_present_calls s cfg r :
  compress_init s (Some cfg) = Some r ->
  hook_calls (calls r) = []
  \/ (0 < get_model (Cfg.compress_model cfg)
      /\ hook_calls (calls r)
         = [Call_val_level (get_model (Cfg.compress_model cfg))
                           (Cfg.compress_level cfg)]).
Proof.
  unfold compress_init. cbv zeta.
  destruct (_ >? KNET_MAX_COMPRESS_METHODS).
  { intros [= <-]. now left. }
  destruct (_ <? 0).
  { intros [= <-]. now left. }
  destruct (Z.gtb_spec (get_model (Cfg.compress_model cfg)) 0).
  - destruct (val_level _ _ _) as [[v s1] |]; [| discriminate].
    intros [= <-]. right. split; [lia |].
    destruct (v <? 0); [reflexivity |].
    destruct (_ >? KNET_MAX_PACKET_SIZE); [reflexivity |].
    destruct (_ =? 0); reflexivity.
  - intros [= <-]. now left.
Qed.

(** X9.  After [compress_init] has succeeded with the name of a row above
    0, [compress] on the handle is defined and runs the compress function
    of that row. *)
Theorem compress_after_init s cfg r :
  compress_init s (Some cfg) = Some r ->
  ret r = 0 ->
  0 < get_model (Cfg.compress_model cfg) ->
  exists f,
    compress_of (get_model (Cfg.compress_model cfg)) = Some f
    /\ forall buf_in buf_in_len buf_out_len,
         compress (st r) buf_in buf_in_len buf_out_len
         = Some (f (st r) buf_in buf_in_len buf_out_len).
Proof.
  intros Hr Hret Hpos.
  assert (Hmodel : compress_model (knet_h (st r))
                   = get_model (Cfg.compress_model cfg)).
  { revert Hr Hret. unfold compress_init. cbv zeta.
    destruct (_ >? KNET_MAX_COMPRESS_METHODS).
    { intros [= <-]. discriminate. }
    destruct (_ <? 0).
    { intros [= <-]. discriminate. }
    destruct (_ >? 0).
    - destruct (val_level _ _ _) as [[v s1] |]; [| discriminate].
      intros [= <-]. destruct (v <? 0); [discriminate |].
      destruct (_ >? KNET_MAX_PACKET_SIZE); [discriminate |].
      destruct (_ =? 0); reflexivity.
    - intros [= <-]. reflexivity. }
  pose proof (get_model_range (Cfg.compress_model cfg)) as Hrange.
  unfold compress. rewrite Hmodel.
  assert (Hcase : get_model (Cfg.compress_model cfg) = 1
                  \/ get_model (Cfg.compress_model cfg) = 2
                  \/ get_model (Cfg.compress_model cfg) = 3
                  \/ get_model (Cfg.compress_model cfg) = 4
                  \/ get_model (Cfg.compress_model cfg) = 5
                  \/ get_model (Cfg.compress_model cfg) = 6) by lia.
  repeat (destruct Hcase as [Hcase | Hcase]); rewrite Hcase;
    eexists; (split; [reflexivity |]); intros; reflexivity.
Qed.

End Compress_more.

Lemma get_model_lookup_witness :
  0 <= @get_model store_modules "lz4" <= 6
  /\ @get_model_by_idx store_modules (@get_model store_modules "lz4")
     = Some "lz4".
Proof.
  apply (proj2 (@get_model_lookup store_modules "lz4")). discriminate.
Defined.

Lemma compress_init_none_witness :
  exists r,
    @compress_init store_modules store_limits fresh_state
      (Some (Cfg.mk "none" 99 70000)) = Some r
    /\ ret r = 0
    /\ hook_calls (calls r) = []
    /\ compress_model (knet_h (st r)) = 0
    /\ compress_level (knet_h (st r)) = 99
    /\ compress_threshold (knet_h (st r)) = 0
    /\ errno (st r) = 0.
Proof.
  apply (@compress_init_none store_modules store_limits fresh_state
           (Cfg.mk "none" 99 70000)).
  - unfold table_fits. vm_compute. discriminate.
  - reflexivity.
Defined.

Lemma compress_init_returns_witness :
  (-1 = 0 \/ (-1 = -1 /\ EINVAL = EINVAL))
  /\ (~ @table_fits oom_modules store_limits ->
      -1 = -1 /\ [Call_init 4] = []).
Proof.
  apply (@compress_init_returns oom_modules store_limits fresh_state None
           {| ret := -1;
              st := set_errno (set_errno (set_compress_max_model fresh_state 6)
                                         ENOMEM) EINVAL;
              calls := [Call_init 4;
                        Log_err "Failed to initialize %s library"] |}).
  reflexivity.
Defined.

Lemma compress_init_present_calls_witness :
  hook_calls [Log_debug "Initizializing compress module [%s/%d/%u]";
              Call_val_level 1 10;
              Log_err "compress level %d not supported for model %s"] = []
  \/ (0 < @get_model store_modules "zlib"
      /\ hook_calls [Log_debug "Initizializing compress module [%s/%d/%u]";
                     Call_val_level 1 10;
                     Log_err "compress level %d not supported for model %s"]
         = [Call_val_level (@get_model store_modules "zlib") 10]).
Proof.
  apply (@compress_init_present_calls store_modules store_limits fresh_state
           (Cfg.mk "zlib" 10 0)
           {| ret := -1;
              st := set_errno (set_errno (set_compress_max_model fresh_state 6)
                                         EINVAL) EINVAL;
              calls := [Log_debug "Initizializing compress module [%s/%d/%u]";
                        Call_val_level 1 10;
                        Log_err "compress level %d not supported for model %s"]
           |}).
  reflexivity.
Defined.

Lemma compress_after_init_witness :
  exists f,
    @compress_of store_modules (@get_model store_modules "lzma") = Some f
    /\ forall buf_in buf_in_len buf_out_len,
         @compress store_modules
           (set_compress_level
              (set_compress_model
                 (set_compress_threshold
                    (set_compress_max_model fresh_state 6) 200) 5) 3)
           buf_in buf_in_len buf_out_len
         = Some (f (set_compress_level
                      (set_compress_model
                         (set_compress_threshold
                            (set_compress_max_model fresh_state 6) 200) 5) 3)
                   buf_in buf_in_len buf_out_len).
Proof.
  apply (@compress_after_init store_modules store_limits fresh_state
           (Cfg.mk "lzma" 3 200)
           {| ret := 0;
              st := set_compress_level
                      (set_compress_model
                         (set_compress_threshold
                            (set_compress_max_model fresh_state 6) 200) 5) 3;
              calls := [Log_debug "Initizializing compress module [%s/%d/%u]";
                        Call_val_level 5 3] |}).
  - reflexivity.
  - reflexivity.
  - vm_compute. reflexivity.
Defined.

Lemma get_model_from_first_witness :
  (get_model_from (@compress_modules_cmds store_modules) "lzo2" 0 = -1
   /\ ~ In "lzo2" (names_before_null (@compress_modules_cmds store_modules)))
  \/ (0 <= get_model_from (@compress_modules_cmds store_modules) "lzo2" 0
      /\ (exists r,
            nth_error (@compress_modules_cmds store_modules)
              (Z.to_nat
                 (get_model_from (@compress_modules_cmds store_modules)
                                 "lzo2" 0 - 0))
            = Some r
            /\ Cmd.model_name r = Some "lzo2")
      /\ forall j,
           0 <= j
           < get_model_from (@compress_modules_cmds store_modules) "lzo2" 0 ->
           exists r other,
             nth_error (@compress_modules_cmds store_modules)
               (Z.to_nat (j - 0))
             = Some r
             /\ Cmd.model_name r = Some other /\ other <> "lzo2").
Proof.
  apply (get_model_from_first (@compress_modules_cmds store_modules) "lzo2" 0).
  lia.
Defined.

(** ** test-common.c: how [knet_handle_stop] returns *)

Section Stop_returns.

Context {core : Type} {A : knet_api core}.

Lemma ends_well_abort (h : core) : ends_well (stop_return (-1) h).
Proof. now right. Qed.

Lemma ends_well_called c (r : stopped core) :
  ends_well r -> ends_well (called c r).
Proof.
  intros [[H0 [pre Hpre]] | H1]; [left | now right].
  split; [exact H0 |]. exists (c :: pre). simpl. now rewrite Hpre.
Qed.

Lemma stop_links_ends_well link_ids :
  forall h host_id j k,
    (forall h', ends_well (k h')) ->
    ends_well (stop_links h host_id link_ids j k).
Proof.
  induction link_ids as [| l rest IH]; intros h host_id j k Hk.
  - apply Hk.
  - cbn [stop_links].
    destruct (knet_link_get_enable h host_id l) as [r en].
    apply ends_well_called.
    destruct (negb (r =? 0)); [apply ends_well_abort |].
    destruct (negb (en =? 0)).
    + destruct (knet_link_set_enable h host_id (to_uint8 j) 0) as [r1 h1].
      apply ends_well_called.
      destruct (negb (r1 =? 0)); [apply ends_well_abort |].
      destruct (knet_link_clear_config h1 host_id (to_uint8 j)) as [r2 h2].
      apply ends_well_called. now apply IH.
    + destruct (knet_link_clear_config h host_id (to_uint8 j)) as [r2 h2].
      apply ends_well_called. now apply IH.
Qed.

Lemma stop_hosts_ends_well host_ids :
  forall h, ends_well (stop_hosts h host_ids).
Proof.
  induction host_ids as [| id rest IH]; intros h; cbn [stop_hosts].
  - destruct (knet_handle_free h) as [r h1].
    destruct (negb (r =? 0)).
    + apply ends_well_called, ends_well_abort.
    + left. split; [reflexivity |]. now exists [].
  - destruct (knet_link_get_link_list h id) as [r link_ids].
    apply ends_well_called.
    destruct (negb (r =? 0)); [apply ends_well_abort |].
    apply stop_links_ends_well. intros h'.
    destruct (knet_host_remove h' id) as [r1 h2].
    apply ends_well_called.
    destruct (r1 <? 0); [apply ends_well_abort | apply IH].
Qed.

(** X12.  Whatever the library answers, [knet_handle_stop] returns 0 or -1,
    and it returns 0 only with [knet_handle_free] as its last call: a
    failure of [knet_handle_setfwd], of a getter, of [knet_link_set_enable],
    of [knet_host_remove] or of [knet_handle_free] itself makes it -1.  On
    a [NULL] handle it returns -1 with errno EINVAL and calls nothing. *)
Theorem knet_handle_stop_returns (knet_h : option core) :
  ends_well (knet_handle_stop knet_h)
  /\ (knet_h = None ->
      stop_calls (knet_handle_stop knet_h) = []
      /\ stop_errno (knet_handle_stop knet_h) = Some EINVAL).
Proof.
  split.
  - destruct knet_h as [h |]; [| now right].
    unfold knet_handle_stop. destruct (knet_handle_setfwd h 0) as [r h1].
    apply ends_well_called.
    destruct (r <? 0); [apply ends_well_abort |].
    destruct (knet_host_get_host_list h1) as [r1 host_ids].
    apply ends_well_called.
    destruct (r1 <? 0); [apply ends_well_abort | apply stop_hosts_ends_well].
  - intros ->. split; reflexivity.
Qed.

End Stop_returns.

Lemma knet_handle_stop_returns_witness :
  stop_calls (knet_handle_stop (A := spec_api) None) = []
  /\ stop_errno (knet_handle_stop (A := spec_api) None) = Some EINVAL.
Proof.
  apply (proj2 (knet_handle_stop_returns (A := spec_api) None)). reflexivity.
Defined.

Lemma knet_handle_stop_in_order_witness :
  stop_ret (knet_handle_stop (A := spec_api) (Some two_links_up)) = 0
  /\ stop_core (knet_handle_stop (A := spec_api) (Some two_links_up))
     = Some (mk_core false [] true)
  /\ teardown_in_order two_links_up
       (stop_calls (knet_handle_stop (A := spec_api) (Some two_links_up)))
     = true.
Proof.
  apply (knet_handle_stop_in_order two_links_up).
  split.
  - repeat constructor; simpl; tauto.
  - repeat constructor; simpl; lia.
Defined.

(** ** test-common.c: [knet_handle_stop_nodes] and [knet_handle_start_nodes] *)

Section Nodes_facts.

Context {core : Type} {A : knet_api core}.

Variable knet_handle_new_ex : Z -> Z -> Z -> Z -> option core.

Lemma to_uint8_small i : 0 <= i < 256 -> to_uint8 i = i.
Proof. intros Hi. unfold to_uint8. now apply Z.mod_small. Qed.

Lemma stop_nodes_from_range (knet_h : node_array core) numnodes n :
  forall fuel i,
    0 <= i ->
    i + Z.of_nat n = numnodes + 1 ->
    numnodes < 255 ->
    (n <= fuel)%nat ->
    stop_nodes_from fuel knet_h numnodes i
    = Some (map (fun j => (j, knet_handle_stop (node_at knet_h j)))
                (map Z.of_nat (seq (Z.to_nat i) n))).
Proof.
  induction n as [| n IH]; intros fuel i Hi Hsum Hmax Hfuel.
  - destruct fuel; simpl; destruct (Z.leb_spec i numnodes); try lia;
      reflexivity.
  - destruct fuel as [| fuel]; [lia |]. simpl.
    destruct (Z.leb_spec i numnodes); [| lia].
    rewrite to_uint8_small by lia.
    rewrite (IH fuel (i + 1)) by lia.
    replace (Z.to_nat (i + 1)) with (S (Z.to_nat i)) by lia.
    now rewrite Z2Nat.id by lia.
Qed.

Lemma stop_nodes_from_wraps (knet_h : node_array core) fuel :
  forall i, 0 <= i < 256 -> stop_nodes_from fuel knet_h 255 i = None.
Proof.
  induction fuel as [| fuel IH]; intros i Hi; simpl;
    (destruct (Z.leb_spec i 255); [| lia]); [reflexivity |].
  rewrite IH; [reflexivity |]. unfold to_uint8. apply Z.mod_pos_bound. lia.
Qed.

(** X13.  [knet_handle_stop_nodes] stops the handles 1 to [numnodes], each
    once and in this order, whatever the single teardowns return; with
    [numnodes] 255 the [uint8_t] counter wraps and the loop never ends. *)
Theorem knet_handle_stop_nodes_all (knet_h : node_array core) numnodes fuel :
  0 <= numnodes <= 255 ->
  (Z.to_nat numnodes <= fuel)%nat ->
  knet_handle_stop_nodes fuel knet_h numnodes
  = if numnodes <? 255 then
      Some (map (fun j => (j, knet_handle_stop (node_at knet_h j)))
                (node_ids (Z.to_nat numnodes)))
    else None.
Proof.
  intros Hn Hfuel. unfold knet_handle_stop_nodes, node_ids.
  destruct (Z.ltb_spec numnodes 255).
  - now rewrite (stop_nodes_from_range knet_h numnodes (Z.to_nat numnodes))
      by lia.
  - replace numnodes with 255 by lia. apply stop_nodes_from_wraps. lia.
Qed.

Lemma node_at_cons (knet_h : node_array core) i h j :
  node_at ((i, h) :: knet_h) j = if i =? j then h else node_at knet_h j.
Proof. unfold node_at. simpl. now destruct (i =? j). Qed.

Lemma start_nodes_from_fails numnodes logfd log_level k n :
  forall fuel i (knet_h : node_array core),
    1 <= i ->
    i + Z.of_nat n = k ->
    k <= numnodes < 255 ->
    (n < fuel)%nat ->
    (forall j, i <= j < k -> knet_handle_new_ex j logfd log_level 0 <> None) ->
    knet_handle_new_ex k logfd log_level 0 = None ->
    exists knet_h',
      start_nodes_from knet_handle_new_ex fuel knet_h numnodes logfd log_level i
      = Some (knet_h', k)
      /\ node_at knet_h' k = None
      /\ (forall j, i <= j < k ->
                    node_at knet_h' j = knet_handle_new_ex j logfd log_level 0)
      /\ (forall j, j < i -> node_at knet_h' j = node_at knet_h j).
Proof.
  induction n as [| n IH]; intros fuel i knet_h Hi Hsum Hk Hfuel Hok Hfail.
  - assert (i = k) by lia. subst i.
    destruct fuel as [| fuel]; [lia |]. simpl.
    destruct (Z.leb_spec k numnodes); [| lia]. rewrite Hfail.
    eexists. split; [reflexivity |]. split; [| split].
    + rewrite node_at_cons. now rewrite Z.eqb_refl.
    + intros j Hj. lia.
    + intros j Hj. rewrite node_at_cons.
      destruct (Z.eqb_spec k j); [lia | reflexivity].
  - destruct fuel as [| fuel]; [lia |]. simpl.
    destruct (Z.leb_spec i numnodes); [| lia].
    destruct (knet_handle_new_ex i logfd log_level 0) as [h |] eqn:Hnew.
    + rewrite to_uint8_small by lia.
      destruct (IH fuel (i + 1) ((i, Some h) :: knet_h))
        as (knet_h' & Hrun & Hat & Hnew' & Hold); try lia; try assumption.
      { intros j Hj. apply Hok. lia. }
      exists knet_h'. split; [exact Hrun |]. split; [exact Hat |]. split.
      * intros j Hj. destruct (Z.eq_dec j i) as [-> | Hne].
        -- rewrite Hold by lia. rewrite node_at_cons, Z.eqb_refl. now symmetry.
        -- apply Hnew'. lia.
      * intros j Hj. rewrite Hold by lia. rewrite node_at_cons.
        destruct (Z.eqb_spec i j); [lia | reflexivity].
    + exfalso. apply (Hok i); [lia | assumption].
Qed.

(** X14.  When [knet_handle_new_ex] fails first for node [k]: for a [k]
    below [numnodes] the nodes 1 to [k] are stopped, the last of them being
    the [NULL] just stored, and the test exits with FAIL; for the last node
    the function returns as if all had been created, with [knet_h[numnodes]]
    [NULL]. *)
Theorem knet_handle_start_nodes_failure numnodes logfd log_level k fuel
  (knet_h : node_array core) :
  1 <= k <= numnodes ->
  numnodes < 255 ->
  (Z.to_nat numnodes < fuel)%nat ->
  (forall j, 1 <= j < k -> knet_handle_new_ex j logfd log_level 0 <> None) ->
  knet_handle_new_ex k logfd log_level 0 = None ->
  exists knet_h',
    node_at knet_h' k = None
    /\ (forall j, 1 <= j < k ->
                  node_at knet_h' j = knet_handle_new_ex j logfd log_level 0)
    /\ knet_handle_start_nodes knet_handle_new_ex fuel knet_h numnodes logfd
                               log_level
       = Some (if k <? numnodes then
                 Start_exited
                   (map (fun j => (j, knet_handle_stop (node_at knet_h' j)))
                        (node_ids (Z.to_nat k)))
                   FAIL
               else Started knet_h').
Proof.
  intros Hk Hmax Hfuel Hok Hfail.
  destruct (start_nodes_from_fails numnodes logfd log_level k
              (Z.to_nat (k - 1)) fuel 1 knet_h)
    as (knet_h' & Hrun & Hat & Hnew & _); try lia; try assumption.
  exists knet_h'. split; [exact Hat |]. split; [exact Hnew |].
  unfold knet_handle_start_nodes. rewrite Hrun.
  destruct (Z.ltb_spec k numnodes); [| reflexivity].
  unfold knet_handle_stop_nodes, node_ids.
  now rewrite (stop_nodes_from_range knet_h' k (Z.to_nat k)) by lia.
Qed.

End Nodes_facts.

Lemma knet_handle_stop_nodes_all_witness :
  knet_handle_stop_nodes (A := spec_api) 2
    [(2, Some (mk_core false [] false)); (1, Some only_link_1)] 2
  = Some [(1, knet_handle_stop (A := spec_api) (Some only_link_1));
          (2, knet_handle_stop (A := spec_api)
                (Some (mk_core false [] false)))].
Proof.
  apply (knet_handle_stop_nodes_all (A := spec_api)
           [(2, Some (mk_core false [] false)); (1, Some only_link_1)] 2 2).
  - lia.
  - simpl. lia.
Defined.

Lemma knet_handle_start_nodes_failure_witness :
  exists knet_h',
    node_at knet_h' 3 = None
    /\ (forall j, 1 <= j < 3 -> node_at knet_h' j = two_handles_only j 5 7 0)
    /\ knet_handle_start_nodes (A := spec_api) two_handles_only 4 [] 3 5 7
       = Some (Started knet_h').
Proof.
  apply (knet_handle_start_nodes_failure (A := spec_api) two_handles_only
           3 5 7 3 4 []).
  - lia.
  - lia.
  - simpl. lia.
  - intros j Hj. unfold two_handles_only.
    destruct (Z.ltb_spec j 3); [discriminate | lia].
  - reflexivity.
Defined.

(** ** test-common.c: [_read_pipe] *)

Lemma store_byte_last acc x v :
  store_byte (acc ++ [x]) (List.length acc) v = (acc ++ [v])%list.
Proof. induction acc as [| a acc IH]; simpl; [reflexivity | now rewrite IH]. Qed.

Lemma block_bytes_collected acc : block_bytes (collected acc) = acc.
Proof. now destruct acc. Qed.

Lemma collected_app acc data :
  data <> [] -> Block (acc ++ data) = collected (acc ++ data).
Proof.
  intros Hdata. destruct acc; simpl; [| reflexivity].
  destruct data; [contradiction | reflexivity].
Qed.

(** The loop while it keeps reading: what has been collected grows by the
    bytes of the rounds. *)
Lemma read_pipe_loop_reading rounds :
  forall acc tail,
    Forall reading rounds ->
    read_pipe_loop (rounds ++ tail) (collected acc)
                   (Z.of_nat (List.length acc))
    = read_pipe_loop tail (collected (acc ++ pipe_data rounds))
                     (Z.of_nat (List.length (acc ++ pipe_data rounds))).
Proof.
  induction rounds as [| r rounds IH]; intros acc tail Hall.
  - simpl. now rewrite app_nil_r.
  - apply Forall_cons_iff in Hall. destruct Hall as [Hr Hall].
    destruct r as [data ok | e]; simpl in Hr.
    + destruct Hr as [Hdata ->]. cbn [app read_pipe_loop].
      assert (Hn : (Z.of_nat (List.length data) =? 0) = false).
      { apply Z.eqb_neq. destruct data; [contradiction | simpl; lia]. }
      rewrite Hn. cbn [andb]. rewrite block_bytes_collected, app_nil_r.
      rewrite (collected_app acc data Hdata).
      replace (Z.of_nat (List.length acc) + (0 + Z.of_nat (List.length data)))
        with (Z.of_nat (List.length (acc ++ data)))
        by (rewrite length_app; lia).
      rewrite IH by assumption.
      unfold pipe_data. cbn [flat_map]. now rewrite app_assoc.
    + subst e. cbn [app read_pipe_loop]. rewrite Z.eqb_refl.
      now rewrite IH by assumption.
Qed.

Lemma read_pipe_loop_eof acc rest :
  acc <> [] ->
  read_pipe_loop (Read_bytes [] true :: rest) (collected acc)
                 (Z.of_nat (List.length acc))
  = Some (mk_piped 0 (Block (acc ++ [Byte.x00]))
                   (Z.of_nat (List.length acc) + 1)).
Proof.
  intros Hacc. cbn [read_pipe_loop].
  change (Z.of_nat (@List.length Byte.byte [])) with 0.
  change (0 =? 0) with true. cbn [andb].
  destruct (Z.eqb_spec (Z.of_nat (List.length acc)) 0) as [Hz | _].
  { destruct acc; [contradiction | simpl in Hz; lia]. }
  rewrite block_bytes_collected. cbn [app].
  replace (Z.to_nat (Z.of_nat (List.length acc) + (1 + 0) - 1))
    with (List.length acc) by lia.
  rewrite store_byte_last. reflexivity.
Qed.

(** X15.  When the reads deliver bytes, interrupted any number of times,
    and then the end of the file, [_read_pipe] returns 0 with [*file] the
    bytes in the order read followed by a NUL and [*length] their number
    plus one; with no byte before the end of the file it returns 0 with
    [*file] [NULL] and [*length] zero. *)
Theorem read_pipe_collects rounds rest :
  Forall reading rounds ->
  _read_pipe (rounds ++ Read_bytes [] true :: rest)
  = Some (match pipe_data rounds with
          | [] => mk_piped 0 Null 0
          | _ :: _ =>
              mk_piped 0 (Block (pipe_data rounds ++ [Byte.x00]))
                       (Z.of_nat (List.length (pipe_data rounds)) + 1)
          end).
Proof.
  intros Hall. unfold _read_pipe.
  change Null with (collected []).
  change 0 with (Z.of_nat (@List.length Byte.byte [])) at 1.
  rewrite read_pipe_loop_reading by assumption. cbn [app].
  destruct (pipe_data rounds) as [| b data] eqn:Hdata.
  - reflexivity.
  - now rewrite read_pipe_loop_eof.
Qed.

(** X16.  When a [read] fails with an errno other than EINTR, [_read_pipe]
    returns -1 and [*file] is no live block: what had been collected is
    freed, while [*length] still counts it.  When memory runs out, it
    returns -1 with [*file] [NULL]. *)
Theorem read_pipe_fails rounds rest e data :
  Forall reading rounds ->
  e <> EINTR ->
  data <> [] ->
  _read_pipe (rounds ++ Read_error e :: rest)
  = Some (mk_piped (-1)
            (match pipe_data rounds with [] => Null | _ :: _ => Freed end)
            (Z.of_nat (List.length (pipe_data rounds))))
  /\ _read_pipe (rounds ++ Read_bytes data false :: rest)
     = Some (mk_piped (-1) Null (Z.of_nat (List.length (pipe_data rounds)))).
Proof.
  intros Hall He Hdata. unfold _read_pipe.
  change Null with (collected []) at 1 3.
  change 0 with (Z.of_nat (@List.length Byte.byte [])).
  rewrite !read_pipe_loop_reading by assumption. cbn [app]. split.
  - cbn [read_pipe_loop]. destruct (Z.eqb_spec e EINTR); [contradiction |].
    now destruct (pipe_data rounds).
  - cbn [read_pipe_loop].
    assert (Hn : (Z.of_nat (List.length data) =? 0) = false).
    { apply Z.eqb_neq. destruct data; [contradiction | simpl; lia]. }
    rewrite Hn. reflexivity.
Qed.

Lemma read_pipe_collects_witness :
  _read_pipe [Read_error EINTR; Read_bytes [Byte.x6f; Byte.x6b] true;
              Read_error EINTR; Read_bytes [Byte.x0a] true;
              Read_bytes [] true]
  = Some (mk_piped 0 (Block [Byte.x6f; Byte.x6b; Byte.x0a; Byte.x00]) 4).
Proof.
  apply (read_pipe_collects
           [Read_error EINTR; Read_bytes [Byte.x6f; Byte.x6b] true;
            Read_error EINTR; Read_bytes [Byte.x0a] true] []).
  repeat constructor; discriminate.
Defined.

Lemma read_pipe_fails_witness :
  _read_pipe [Read_bytes [Byte.x6f; Byte.x6b] true; Read_error EIO]
  = Some (mk_piped (-1) Freed 2)
  /\ _read_pipe [Read_bytes [Byte.x6f; Byte.x6b] true;
                 Read_bytes [Byte.x0a] false]
     = Some (mk_piped (-1) Null 2).
Proof.
  apply (read_pipe_fails [Read_bytes [Byte.x6f; Byte.x6b] true] [] EIO
           [Byte.x0a]).
  - repeat constructor; discriminate.
  - discriminate.
  - discriminate.
Defined.

(** ** test-common.c: [_make_local_sockaddr] *)

(** X17.  For an offset that is not negative the port chosen is
    1024 + (pid + offset) mod 64512: it lies between 1024 and 65535, it is
    stored to the [in_port_t] unchanged, and two offsets less than 64512
    apart never give the same port. *)
Theorem local_port_range pid offset offset' :
  0 <= pid ->
  0 <= offset ->
  0 <= offset' ->
  pid + offset <= 2147483647 ->
  pid + offset' <= 2147483647 ->
  local_port pid offset = 1024 + (pid + offset) mod 64512
  /\ 1024 <= local_port pid offset <= 65535
  /\ (offset <> offset' -> Z.abs (offset - offset') < 64512 ->
      local_port pid offset <> local_port pid offset').
Proof.
  intros Hpid Hoff Hoff' _ _.
  assert (Hport : forall o, 0 <= o ->
            local_port pid o = 1024 + (pid + o) mod 64512).
  { intros o Ho. unfold local_port, to_uint16.
    destruct (Z.ltb_spec o 0); [lia |].
    change (65536 - 1024) with 64512.
    rewrite Z.rem_mod_nonneg by lia.
    pose proof (Z.mod_pos_bound (pid + o) 64512 ltac:(lia)).
    rewrite Z.mod_small; lia. }
  rewrite !Hport by assumption.
  pose proof (Z.mod_pos_bound (pid + offset) 64512 ltac:(lia)).
  split; [reflexivity |]. split; [lia |].
  intros Hne Hnear Heq.
  pose proof (Z.div_mod (pid + offset) 64512 ltac:(lia)).
  pose proof (Z.div_mod (pid + offset') 64512 ltac:(lia)).
  assert ((pid + offset) mod 64512 = (pid + offset') mod 64512) by lia.
  lia.
Qed.

Lemma local_port_range_witness :
  local_port 4321 1 = 1024 + (4321 + 1) mod 64512
  /\ 1024 <= local_port 4321 1 <= 65535
  /\ (1 <> 2 -> Z.abs (1 - 2) < 64512 ->
      local_port 4321 1 <> local_port 4321 2).
Proof. apply (local_port_range 4321 1 2); lia. Defined.

(** ** [dyn_knet_link_set_config] and [_knet_link_set_config] *)

Section Set_config_facts.

Context {E : link_env}.

Variables (host_id link_id transport flags family dynamic : Z).
Variable addr : string.
Variable lo1 : option sockaddr.

Local Abbreviation loop :=
  (dyn_loop host_id link_id transport flags family dynamic addr lo1).
Local Abbreviation converted := (converted family addr).
Local Abbreviation attempt :=
  (attempt host_id link_id transport flags family dynamic addr lo1).
Local Abbreviation in_use :=
  (in_use host_id link_id transport flags family dynamic addr lo1).

(** X18.  [dyn_knet_link_set_config] takes the lowest port from 1025 on
    that is not in use: when the ports before [port] are in use and the
    link is configured on [port], it returns 0 with [lo0] the address of
    that port, and the test goes on. *)
Theorem dyn_first_free_port port recv_thread_1 :
  1025 <= port < 65536 ->
  (forall q, 1025 <= q < port -> in_use q) ->
  0 <= fst (converted port) ->
  fst (attempt port) = 0 ->
  dyn_knet_link_set_config host_id link_id transport flags family dynamic
                           addr lo1
  = Some (mk_configured 0 (snd (attempt port)) (Some (snd (converted port))))
  /\ FAIL_ON_ERR recv_thread_1 0 = None.
Proof.
  intros Hport Hbusy Hconv Hfree. split; [| reflexivity].
  assert (Hhere : forall fuel err savederrno lo0,
            loop (S fuel) port err savederrno lo0
            = Some (mk_configured 0 (snd (attempt port))
                                  (Some (snd (converted port))))).
  { intros fuel err savederrno lo0.
    rewrite dyn_loop_round by lia.
    destruct (Z.ltb_spec (fst (converted port)) 0); [lia |].
    rewrite Hfree. reflexivity. }
  unfold dyn_knet_link_set_config.
  destruct (Z.eq_dec port 1025) as [-> | Hne].
  - replace (Z.to_nat 65536) with (S (Z.to_nat 65535)) by lia. apply Hhere.
  - replace (Z.to_nat 65536)
      with (S (Z.to_nat (port - 1026))
            + S (Z.to_nat (65535 - (port - 1025))))%nat by lia.
    rewrite dyn_loop_skips_in_use.
    + replace (1025 + Z.of_nat (S (Z.to_nat (port - 1026)))) with port by lia.
      apply Hhere.
    + lia.
    + intros q Hq. apply Hbusy. lia.
Qed.

(** The two loops side by side, for a dynamic link on the loopback. *)
Lemma siblings_loop fuel :
  forall port err savederrno lo,
    dynamic <> 0 ->
    match dyn_loop host_id link_id transport flags family dynamic
                   "127.0.0.1" lo1 fuel port err savederrno lo,
          set_config_loop host_id link_id transport flags family dynamic
                          fuel port err savederrno lo with
    | Some c1, Some c2 =>
        c1 = c2
        \/ (cfg_ret c1 = -2
            /\ transport = KNET_TRANSPORT_SCTP
            /\ cfg_errno c1 = EPROTONOSUPPORT
            /\ cfg_ret c2 < 0
            /\ cfg_errno c2 = EPROTONOSUPPORT
            /\ cfg_lo0 c2 = cfg_lo0 c1)
    | None, None => True
    | _, _ => False
    end.
Proof.
  induction fuel as [| fuel IH]; intros port err savederrno lo Hdyn; simpl.
  - destruct (port <? 65536); [exact I | now left].
  - destruct (port <? 65536); [| now left].
    destruct (Z.eqb_spec dynamic 0) as [| _]; [contradiction |]. cbn [negb].
    destruct (if family =? AF_INET6 then knet_strtoaddr "::1" port
              else knet_strtoaddr "127.0.0.1" port) as [e sa].
    destruct (e <? 0); [now left |].
    destruct (knet_link_set_config host_id link_id transport sa None flags)
      as [e2 sv2].
    destruct (Z.ltb_spec e2 0); cbn [andb].
    + destruct (Z.eqb_spec sv2 EADDRINUSE); cbn [negb].
      * destruct (e2 =? 0); [now left | now apply IH].
      * destruct (Z.eqb_spec sv2 EPROTONOSUPPORT); cbn [andb]; [| now left].
        destruct (Z.eqb_spec transport KNET_TRANSPORT_SCTP); [| now left].
        right. repeat split; assumption.
    + destruct (e2 =? 0); [now left | now apply IH].
Qed.

End Set_config_facts.

(** X19.  For a dynamic link on 127.0.0.1, [dyn_knet_link_set_config] is
    [_knet_link_set_config] but for the skip signal: the two return the
    same value, errno and address, except where the former returns -2 for
    EPROTONOSUPPORT on SCTP and the latter the error of the library. *)
Theorem set_config_siblings {E : link_env}
  (host_id link_id transport flags family dynamic : Z)
  (lo1 : option sockaddr) :
  dynamic <> 0 ->
  exists c1 c2,
    dyn_knet_link_set_config host_id link_id transport flags family dynamic
                             "127.0.0.1" lo1 = Some c1
    /\ _knet_link_set_config host_id link_id transport flags family dynamic
       = Some c2
    /\ (c1 = c2
        \/ (cfg_ret c1 = -2
            /\ transport = KNET_TRANSPORT_SCTP
            /\ cfg_errno c1 = EPROTONOSUPPORT
            /\ cfg_ret c2 < 0
            /\ cfg_errno c2 = EPROTONOSUPPORT
            /\ cfg_lo0 c2 = cfg_lo0 c1)).
Proof.
  intros Hdyn. unfold dyn_knet_link_set_config, _knet_link_set_config.
  assert (Hfuel : 65536 - 1025 <= Z.of_nat (Z.to_nat 65536)) by lia.
  revert Hfuel. generalize (Z.to_nat 65536). intros fuel Hfuel.
  destruct (dyn_loop_defined host_id link_id transport flags family dynamic
              "127.0.0.1" lo1 fuel 1025 0 0 None Hfuel) as [c1 Hc1].
  pose proof (siblings_loop host_id link_id transport flags family dynamic
                lo1 fuel 1025 0 0 None Hdyn) as Hboth.
  rewrite Hc1 in Hboth. rewrite Hc1.
  destruct (set_config_loop host_id link_id transport flags family dynamic
              fuel 1025 0 0 None) as [c2 |]; [| contradiction].
  exists c1, c2. repeat split; try reflexivity; assumption.
Qed.

Lemma dyn_first_free_port_witness :
  @dyn_knet_link_set_config third_port_env 2 0 1 0 2 1 "127.0.0.1" None
  = Some (mk_configured 0 0 (Some (mk_sockaddr "127.0.0.1" 1027)))
  /\ FAIL_ON_ERR 0 0 = None.
Proof.
  apply (@dyn_first_free_port third_port_env 2 0 1 0 2 1 "127.0.0.1" None
           1027 0).
  - lia.
  - intros q Hq. unfold in_use, attempt, converted. simpl.
    destruct (Z.ltb_spec q 1027); [| lia].
    simpl. unfold EADDRINUSE. lia.
  - simpl. lia.
  - reflexivity.
Defined.

Lemma set_config_siblings_witness :
  exists c1 c2,
    @dyn_knet_link_set_config no_sctp_env 2 0 2 0 2 1 "127.0.0.1" None
    = Some c1
    /\ @_knet_link_set_config no_sctp_env 2 0 2 0 2 1 = Some c2
    /\ (c1 = c2
        \/ (cfg_ret c1 = -2
            /\ 2 = @KNET_TRANSPORT_SCTP no_sctp_env
            /\ cfg_errno c1 = EPROTONOSUPPORT
            /\ cfg_ret c2 < 0
            /\ cfg_errno c2 = EPROTONOSUPPORT
            /\ cfg_lo0 c2 = cfg_lo0 c1)).
Proof.
  apply (@set_config_siblings no_sctp_env 2 0 2 0 2 1 None). discriminate.
Defined.

(** ** test-common.c: [wait_for_packet] *)

Lemma wait_for_packet_from_zeros zs :
  forall seconds i tail,
    Forall (fun s => sel_err s = 0) zs ->
    i + Z.of_nat (List.length zs) <= seconds ->
    wait_for_packet_from (zs ++ tail) seconds i
    = wait_for_packet_from tail seconds (i + Z.of_nat (List.length zs)).
Proof.
  induction zs as [| z zs IH]; intros seconds i tail Hall Hlen.
  - simpl. now rewrite Z.add_0_r.
  - apply Forall_cons_iff in Hall. destruct Hall as [Hz Hall].
    cbn [app wait_for_packet_from]. rewrite Hz.
    change (0 =? 0) with true. cbn [andb].
    simpl List.length in Hlen.
    destruct (Z.ltb_spec i seconds); [| lia].
    rewrite IH by (assumption || lia). f_equal. simpl List.length. lia.
Qed.

(** X21.  With a number of seconds that fits an [int], also after the
    multiplication by 16 that is made under valgrind, [wait_for_packet]
    looks again after every [select] that returns zero, flushing the logs
    in between, at most [seconds] times (16 times as many under valgrind).
    The [select] that ends the wait, be it the first that does not return
    zero or the one after the last retry, gives 0 when it is positive with
    [datafd] set, and -1 with errno ETIMEDOUT in every other case, an error
    of [select] included. *)
Theorem wait_for_packet_retries KNETMEMCHECK KNETHELGRIND seconds zs s rest :
  INT_MIN
  <= (if under_valgrind KNETMEMCHECK KNETHELGRIND then seconds * 16
      else seconds)
  <= INT_MAX ->
  Forall (fun z => sel_err z = 0) zs ->
  Z.of_nat (List.length zs)
  <= (if under_valgrind KNETMEMCHECK KNETHELGRIND then seconds * 16
      else seconds) ->
  sel_err s <> 0
  \/ Z.of_nat (List.length zs)
     = (if under_valgrind KNETMEMCHECK KNETHELGRIND then seconds * 16
        else seconds) ->
  wait_for_packet KNETMEMCHECK KNETHELGRIND seconds (zs ++ s :: rest)
  = Some (if (sel_err s >? 0) && sel_isset s
          then mk_waited 0 None (Z.of_nat (List.length zs))
          else mk_waited (-1) (Some ETIMEDOUT) (Z.of_nat (List.length zs))).
Proof.
  intros Hint Hzs Hlen Hlast. unfold wait_for_packet.
  fold (under_valgrind KNETMEMCHECK KNETHELGRIND).
  set (eff := if under_valgrind KNETMEMCHECK KNETHELGRIND then seconds * 16
              else seconds) in *.
  assert (Heff : (if under_valgrind KNETMEMCHECK KNETHELGRIND
                  then int_mul seconds 16 else Some seconds) = Some eff).
  { subst eff. destruct (under_valgrind KNETMEMCHECK KNETHELGRIND);
      [| reflexivity].
    unfold int_mul.
    destruct (Z.leb_spec INT_MIN (seconds * 16)); [| lia].
    destruct (Z.leb_spec (seconds * 16) INT_MAX); [reflexivity | lia]. }
  rewrite Heff.
  rewrite wait_for_packet_from_zeros by (assumption || lia).
  cbn [wait_for_packet_from Z.add].
  replace (0 + Z.of_nat (List.length zs)) with (Z.of_nat (List.length zs))
    by lia.
  destruct Hlast as [Hne | Hend].
  - destruct (Z.eqb_spec (sel_err s) 0); [contradiction |]. cbn [andb].
    now destruct ((sel_err s >? 0) && sel_isset s).
  - rewrite Hend. rewrite Z.ltb_irrefl, andb_false_r.
    now destruct ((sel_err s >? 0) && sel_isset s).
Qed.

Lemma wait_for_packet_retries_witness :
  wait_for_packet (Some "yes") None 1
    (repeat (mk_selected 0 false) 16 ++ mk_selected 0 false :: [])
  = Some (mk_waited (-1) (Some ETIMEDOUT) 16).
Proof.
  apply (wait_for_packet_retries (Some "yes") None 1
           (repeat (mk_selected 0 false) 16) (mk_selected 0 false) []).
  - vm_compute. split; discriminate.
  - repeat constructor.
  - vm_compute. discriminate.
  - right. reflexivity.
Defined.

(** ** fun_dynamic_check.c: [wait_for_reply] and [dhost_filter] *)

(** X22.  [wait_for_reply] returns 0 exactly when [poll] reports one
    descriptor with POLLIN and the [read] gets at least one byte, and -1
    otherwise.  It stores ETIMEDOUT to errno when [poll] returns 0 and also
    when the [read] returns 0, and EIO when [poll] reports the descriptor
    without POLLIN. *)
Theorem wait_for_reply_outcomes poll_res revents read_res :
  (fst (wait_for_reply poll_res revents read_res) = 0
   <-> poll_res = 1 /\ Z.land revents POLLIN <> 0 /\ 0 < read_res)
  /\ (fst (wait_for_reply poll_res revents read_res) = 0
      \/ fst (wait_for_reply poll_res revents read_res) = -1)
  /\ (snd (wait_for_reply poll_res revents read_res) = Some ETIMEDOUT
      <-> poll_res = 0
          \/ (poll_res = 1 /\ Z.land revents POLLIN <> 0 /\ read_res = 0))
  /\ (snd (wait_for_reply poll_res revents read_res) = Some EIO
      <-> poll_res = 1 /\ Z.land revents POLLIN = 0).
Proof.
  unfold wait_for_reply, ETIMEDOUT, EIO.
  destruct (Z.eqb_spec poll_res 1) as [Hp | Hp];
    [destruct (Z.eqb_spec (Z.land revents POLLIN) 0) as [Hz | Hz];
     [| destruct (Z.gtb_spec read_res 0) as [Hr | Hr]] |];
    cbn [negb];
    repeat match goal with
           | |- context [?a =? ?b] => destruct (Z.eqb_spec a b)
           end;
    cbn [fst snd];
    repeat split; intros;
    repeat match goal with
           | H : _ /\ _ |- _ => destruct H
           | H : _ \/ _ |- _ => destruct H
           end;
    try lia; try discriminate; try reflexivity; try contradiction;
    try (left; lia); try (right; repeat split; lia).
Qed.

(** X23.  [dhost_filter] names one destination, 3 minus the source as a
    [knet_node_id_t]: it sends node 1 to node 2 and node 2 to node 1, it
    never names the source itself, and applied to its own destination it
    gives the source back. *)
Theorem dhost_filter_swaps src :
  0 <= src < 65536 ->
  fst (fst (dhost_filter src)) = 0
  /\ snd (dhost_filter src) = 1
  /\ 0 <= snd (fst (dhost_filter src)) < 65536
  /\ snd (fst (dhost_filter src)) <> src
  /\ snd (fst (dhost_filter (snd (fst (dhost_filter src))))) = src
  /\ (src = 1 -> snd (fst (dhost_filter src)) = 2)
  /\ (src = 2 -> snd (fst (dhost_filter src)) = 1).
Proof.
  intros Hsrc. unfold dhost_filter, to_uint16. cbn [fst snd].
  split; [reflexivity |]. split; [reflexivity |].
  assert (Hdst : (3 - src) mod 65536 = if src <=? 3 then 3 - src
                                       else 65539 - src).
  { destruct (Z.leb_spec src 3).
    - apply Z.mod_small. lia.
    - symmetry. apply (Z.mod_unique (3 - src) 65536 (-1)); lia. }
  rewrite Hdst.
  destruct (Z.leb_spec src 3).
  - split; [lia |]. split; [lia |]. split.
    + rewrite Z.mod_small by lia. lia.
    + split; intros ->; reflexivity.
  - split; [lia |]. split; [lia |]. split.
    + symmetry. apply (Z.mod_unique _ 65536 (-1)); lia.
    + split; intros ->; lia.
Qed.

Lemma dhost_filter_swaps_witness :
  fst (fst (dhost_filter 2)) = 0
  /\ snd (dhost_filter 2) = 1
  /\ 0 <= snd (fst (dhost_filter 2)) < 65536
  /\ snd (fst (dhost_filter 2)) <> 2
  /\ snd (fst (dhost_filter (snd (fst (dhost_filter 2))))) = 2
  /\ (2 = 1 -> snd (fst (dhost_filter 2)) = 2)
  /\ (2 = 2 -> snd (fst (dhost_filter 2)) = 1).
Proof. apply (dhost_filter_swaps 2). lia. Defined.

(** ** fun_dynamic_check.c: what [recv_messages] keeps *)

Lemma recv_body_step r v :
  let v' := fst (recv_body r v) in
  msgs_recvd v <= msgs_recvd v' <= msgs_recvd v + 1
  /\ (err v' = err v \/ err v' = 1)
  /\ replies v <= replies v'
  /\ replies v' - replies v <= msgs_recvd v' - msgs_recvd v.
Proof.
  unfold recv_body.
  destruct (quit_recv_thread r); [simpl; lia |].
  destruct (len r >? 0).
  - destruct (String.eqb "QUIT" (buf r)); [simpl; lia |].
    destruct (starts_with_0 (buf r)); [simpl; lia |].
    destruct (negb (write_res r =? 1)); [simpl; lia |].
    destruct ((len r <? 0) && negb (recv_errno r =? EAGAIN)); simpl; lia.
  - destruct ((len r <? 0) && negb (recv_errno r =? EAGAIN)); simpl; lia.
Qed.

(** X24.  However [recv_messages] ends, the count of messages has not gone
    down and has grown by at most one for each round, the static [err] is
    what it was or 1 (it is never reset, so an error of one thread shows in
    what every later thread returns), and the bytes written to the reply
    pipe are at most as many as the messages counted. *)
Theorem recv_messages_keeps rounds :
  forall v v',
    recv_messages rounds v = Some v' ->
    msgs_recvd v <= msgs_recvd v'
                 <= msgs_recvd v + Z.of_nat (List.length rounds)
    /\ (err v' = err v \/ err v' = 1)
    /\ replies v <= replies v'
    /\ replies v' - replies v <= msgs_recvd v' - msgs_recvd v.
Proof.
  induction rounds as [| r rounds IH]; intros v v' Hrun.
  - discriminate.
  - cbn [recv_messages] in Hrun.
    assert (Hlen : Z.of_nat (List.length (r :: rounds))
                   = Z.of_nat (List.length rounds) + 1)
      by (simpl List.length; lia).
    rewrite Hlen.
    destruct (len r =? 0).
    { injection Hrun as <-. lia. }
    pose proof (recv_body_step r v) as Hstep. cbv zeta in Hstep.
    destruct (recv_body r v) as [v1 [| |]]; cbn [fst] in Hstep.
    + specialize (IH v1 v' Hrun). intuition lia.
    + injection Hrun as <-. intuition lia.
    + injection Hrun as <-. intuition lia.
Qed.

Lemma recv_messages_keeps_witness :
  msgs_recvd (mk_vars 0 0 0) <= msgs_recvd (mk_vars 1 1 0)
                             <= msgs_recvd (mk_vars 0 0 0)
                                + Z.of_nat (List.length [got "0 blocked"])
  /\ (err (mk_vars 1 1 0) = err (mk_vars 0 0 0) \/ err (mk_vars 1 1 0) = 1)
  /\ replies (mk_vars 0 0 0) <= replies (mk_vars 1 1 0)
  /\ replies (mk_vars 1 1 0) - replies (mk_vars 0 0 0)
     <= msgs_recvd (mk_vars 1 1 0) - msgs_recvd (mk_vars 0 0 0).
Proof.
  apply (recv_messages_keeps [got "0 blocked"] (mk_vars 0 0 0) (mk_vars 1 1 0)).
  vm_compute. reflexivity.
Defined.

(** ** test-common.c: the log thread *)

Lemma start_logthread_consistent lock_res create_res logfd std g :
  log_consistent g ->
  log_consistent (snd (start_logthread lock_res create_res logfd std g)).
Proof.
  intros (Hinit & Hthreads & Hfree). unfold start_logthread.
  destruct (negb (lock_res =? 0)); [repeat split; assumption |].
  cbn [log_thread_init log_threads data_logfd data_std].
  destruct (Z.eqb_spec (log_thread_init g) 0) as [H0 | H1].
  - destruct (negb (create_res =? 0)); unfold log_consistent; simpl;
      repeat split; auto; lia.
  - unfold log_consistent; simpl. repeat split; auto.
Qed.

Lemma stop_logthread_consistent lock_res g :
  log_consistent g ->
  log_consistent (snd (stop_logthread lock_res g)).
Proof.
  intros (Hinit & Hthreads & Hfree). unfold stop_logthread.
  destruct (negb (lock_res =? 0)); [repeat split; assumption |].
  cbn [log_thread_init log_threads data_logfd data_std].
  destruct (Z.eqb_spec (log_thread_init g) 0) as [H0 | H1]; cbn [negb];
    unfold log_consistent; simpl; repeat split; auto; lia.
Qed.

(** X25.  Over any sequence of calls of [start_logthread] and
    [stop_logthread], whatever the pthread functions answer: there is one
    log thread while [log_thread_init] is 1 and none while it is 0, never
    two, and every call leaves the mutex free.  A [start_logthread] that
    finds the thread started creates none and keeps the descriptor the
    thread reads. *)
Theorem log_thread_single calls :
  forall g,
    log_consistent g ->
    log_consistent (log_run calls g)
    /\ 0 <= log_threads (log_run calls g) <= 1
    /\ forall lock_res create_res logfd std,
         log_thread_init (log_run calls g) = 1 ->
         log_threads (snd (start_logthread lock_res create_res logfd std
                                           (log_run calls g)))
         = 1
         /\ data_logfd (snd (start_logthread lock_res create_res logfd std
                                             (log_run calls g)))
            = data_logfd (log_run calls g).
Proof.
  assert (Hrun : forall calls g,
            log_consistent g -> log_consistent (log_run calls g)).
  { induction calls0 as [| c calls0 IH]; intros g Hg; [exact Hg |].
    unfold log_run. cbn [fold_left]. apply IH.
    destruct c; [apply start_logthread_consistent
                | apply stop_logthread_consistent]; exact Hg. }
  intros g Hg. specialize (Hrun calls g Hg).
  split; [exact Hrun |].
  destruct Hrun as (Hinit & Hthreads & Hfree).
  split; [lia |].
  intros lock_res create_res logfd std H1. unfold start_logthread.
  destruct (negb (lock_res =? 0)); [cbn [snd]; split; [lia | reflexivity] |].
  cbn [log_thread_init]. rewrite H1. change (1 =? 0) with false.
  cbv iota. cbn [snd log_threads data_logfd]. split; [lia | reflexivity].
Qed.

Lemma log_thread_single_witness :
  log_consistent
    (log_run [Call_start_logthread 0 0 7 1; Call_start_logthread 0 0 9 1;
              Call_stop_logthread 0; Call_stop_logthread 0]
             (mk_log_state 0 false 0 0 0))
  /\ 0 <= log_threads
            (log_run [Call_start_logthread 0 0 7 1;
                      Call_start_logthread 0 0 9 1;
                      Call_stop_logthread 0; Call_stop_logthread 0]
                     (mk_log_state 0 false 0 0 0)) <= 1.
Proof.
  destruct (log_thread_single
              [Call_start_logthread 0 0 7 1; Call_start_logthread 0 0 9 1;
               Call_stop_logthread 0; Call_stop_logthread 0]
              (mk_log_state 0 false 0 0 0)) as (Hc & Hb & _).
  - repeat split; auto.
  - split; assumption.
Defined.

(** ** test-common.c: [wait_for_host] and [wait_for_nodes_state] *)

(** X26.  [wait_for_host] returns -1 only when the wait mutex cannot be
    locked or when [pthread_cond_timedwait] returns -1 with errno
    ETIMEDOUT; any other outcome of the wait, the return value ETIMEDOUT
    among them, gives 0 like a host that is reachable.  The notification is
    switched off again on every way out but the failed lock. *)
Theorem wait_for_host_outcomes KNETMEMCHECK KNETHELGRIND reachable seconds
  lock_res res wait_errno :
  let w := wait_for_host KNETMEMCHECK KNETHELGRIND reachable seconds
                         lock_res res wait_errno in
  (wf_ret w = 0 \/ wf_ret w = -1)
  /\ (wf_ret w = -1
      <-> reachable <> 1
          /\ (lock_res <> 0 \/ (res = -1 /\ wait_errno = ETIMEDOUT)))
  /\ (In Disable_notify (wf_steps w) <-> reachable = 1 \/ lock_res = 0)
  /\ (In Lock_wait_mutex (wf_steps w) -> In Unlock_wait_mutex (wf_steps w)).
Proof.
  unfold wait_for_host. cbv zeta.
  destruct (Z.eqb_spec reachable 1);
    [| destruct (Z.eqb_spec lock_res 0); cbn [negb];
       [destruct (Z.eqb_spec res (-1));
        destruct (Z.eqb_spec wait_errno ETIMEDOUT); cbn [andb] |]];
    cbn [wf_ret wf_steps In];
    repeat split; intros;
    repeat match goal with
           | H : _ /\ _ |- _ => destruct H
           | H : _ \/ _ |- _ => destruct H
           end;
    try lia; try discriminate; try contradiction; try tauto;
    try (left; lia); try (right; lia).
Qed.

Lemma wait_target_in_range numnodes state :
  state <> 0 -> 0 <= numnodes <= 2147483648 ->
  wait_target numnodes state = numnodes - 1.
Proof.
  intros Hstate Hrange. unfold wait_target.
  destruct (Z.eqb_spec state 0); [contradiction |]. cbn [negb].
  destruct (Z.eq_dec numnodes 0) as [-> | Hpos]; [reflexivity |].
  unfold to_size_t, to_int.
  rewrite (Z.mod_small (numnodes - 1)) by lia.
  rewrite Z.mod_small by lia. lia.
Qed.

(** X27.  [wait_for_nodes_state] waits for [target] nodes: none when
    [state] is 0, and otherwise [numnodes - 1] as it comes out of the
    [size_t] subtraction and the store to an [int], which is [numnodes - 1]
    for every [numnodes] up to 2^31.  It returns 0 without waiting when
    that many nodes are reachable; when it has to wait it returns what
    [pthread_cond_timedwait] returned, so that under [FAIL_ON_ERR] a wait
    that ends with anything but 0 fails the test. *)
Theorem wait_for_nodes_state_outcomes host_index numnodes state timeout
  lock_res res recv_thread_1 :
  let target := if negb (state =? 0) then to_int (to_size_t (numnodes - 1))
                else 0 in
  let w := wait_for_nodes_state host_index numnodes state timeout lock_res
                                res in
  (count_nodes host_index = target ->
   wf_ret w = 0 /\ ~ In (Timedwait timeout) (wf_steps w)
   /\ FAIL_ON_ERR recv_thread_1 (wf_ret w) = None)
  /\ (count_nodes host_index <> target -> lock_res = 0 ->
      wf_ret w = res
      /\ (res <> 0 -> res <> -2 ->
          option_map snd (FAIL_ON_ERR recv_thread_1 (wf_ret w)) = Some FAIL))
  /\ (state <> 0 -> 0 <= numnodes <= 2147483648 -> target = numnodes - 1).
Proof.
  cbv zeta. unfold wait_for_nodes_state. cbv zeta.
  fold (wait_target numnodes state).
  split; [| split; [| apply wait_target_in_range]].
  - intros Heq. apply Z.eqb_eq in Heq. rewrite Heq. cbn [wf_ret wf_steps].
    split; [reflexivity |]. split; [| reflexivity].
    intros [H | [H | [H | []]]]; discriminate.
  - intros Hne ->. apply Z.eqb_neq in Hne. rewrite Hne.
    cbn [negb Z.eqb wf_ret].
    split; [reflexivity |]. intros Hnz Hn2. unfold FAIL_ON_ERR.
    destruct (Z.eqb_spec res 0); [contradiction |]. cbn [negb option_map snd].
    destruct (Z.eqb_spec res (-2)); [contradiction | reflexivity].
Qed.

Lemma wait_for_nodes_state_outcomes_witness :
  wf_ret (wait_for_nodes_state [None; Some 0; Some 1] 3 1 190 0 ETIMEDOUT)
  = ETIMEDOUT
  /\ (ETIMEDOUT <> 0 -> ETIMEDOUT <> -2 ->
      option_map snd
        (FAIL_ON_ERR 1
           (wf_ret (wait_for_nodes_state [None; Some 0; Some 1] 3 1 190 0
                                         ETIMEDOUT)))
      = Some FAIL).
Proof.
  apply (proj1 (proj2 (wait_for_nodes_state_outcomes
                         [None; Some 0; Some 1] 3 1 190 0 ETIMEDOUT 1))).
  - vm_compute. discriminate.
  - reflexivity.
Defined.

Lemma dyn_no_more_ports_witness :
  exists c,
    @dyn_knet_link_set_config busy_env 2 0 1 0 2 1 "127.0.0.1" None = Some c
    /\ cfg_ret c = -1
    /\ cfg_errno c = EADDRINUSE
    /\ dyn_exit 0 c = Some FAIL.
Proof.
  apply (@dyn_no_more_ports busy_env 2 0 1 0 2 1 "127.0.0.1" None 0).
  - intros q Hq. unfold in_use, attempt, converted. simpl.
    unfold EADDRINUSE. lia.
  - simpl. lia.
Defined.
